(** * linkedin_job_scraper.py: a shallow embedding and its properties

    The development follows the layout of the source file:
    - [PyStr]: the Python [str] operations the scraper uses;
    - [Soup]: the part of a parsed BeautifulSoup tree the scraper reads,
      with [find], [find_all] and [get_text];
    - [Extractor]: [_clean_text], [_parse_job_card], [parse_jobs];
    - [Dedup]: [_deduplicate_jobs];
    - [Transport]: [NetworkManager.fetch_page] over an abstract network;
    - [Scraper]: [LinkedInJobScraper.fetch_job_page] and [scrape];
    - [Input]: [validate_job_count] and the title prompt.

    Strings are sequences of Unicode code points, as Python's [str]:
    [len] counts code points, not bytes. *)

From Stdlib Require Import ZArith NArith Ascii String List Lia Bool.
From stdpp Require Import base decidable option list gmap strings.

Local Open Scope Z_scope.
Set Warnings "-register-all,-clear-no-such-hyp".

(* ===================================================================== *)
(** ** Python strings *)
(* ===================================================================== *)

Module PyStr.

(** A Python [str]: its code points in order. *)
Abbreviation pystr := (list N).

(** A string literal of the source (all of them are ASCII). *)
Definition lit (s : string) : pystr :=
  List.map N_of_ascii (list_ascii_of_string s).

(** Truthiness of a [str]: non-empty. *)
Definition truthy (s : pystr) : bool :=
  match s with [] => false | _ :: _ => true end.

(** [str.isspace] on one code point (CPython's Unicode whitespace set:
    U+0009..U+000D, U+001C..U+0020, U+0085, U+00A0, U+1680,
    U+2000..U+200A, U+2028, U+2029, U+202F, U+205F, U+3000). *)
Definition isspace (c : N) : bool :=
  ((9 <=? c) && (c <=? 13) || (28 <=? c) && (c <=? 32)
   || (c =? 133) || (c =? 160) || (c =? 5760)
   || (8192 <=? c) && (c <=? 8202)
   || (c =? 8232) || (c =? 8233) || (c =? 8239) || (c =? 8287)
   || (c =? 12288))%N.

(** [s.split()]: the maximal runs of non-whitespace, in order. [cur] is the
    run being read, reversed. *)
Fixpoint split_ws_from (cur : pystr) (s : pystr) : list pystr :=
  match s with
  | [] => match cur with [] => [] | _ => [rev cur] end
  | c :: s' =>
      if isspace c
      then match cur with
           | [] => split_ws_from [] s'
           | _ => rev cur :: split_ws_from [] s'
           end
      else split_ws_from (c :: cur) s'
  end.

Definition split_ws (s : pystr) : list pystr := split_ws_from [] s.

(** [sep.join(parts)]. *)
Fixpoint join (sep : pystr) (parts : list pystr) : pystr :=
  match parts with
  | [] => []
  | [p] => p
  | p :: ps => p ++ sep ++ join sep ps
  end.

Fixpoint lstrip (s : pystr) : pystr :=
  match s with
  | [] => []
  | c :: s' => if isspace c then lstrip s' else s
  end.

(** [s.strip()]. *)
Definition strip (s : pystr) : pystr := rev (lstrip (rev (lstrip s))).

(** [s.startswith(p)]. *)
Fixpoint startswith (p s : pystr) : bool :=
  match p, s with
  | [], _ => true
  | _ :: _, [] => false
  | a :: p', b :: s' => (a =? b)%N && startswith p' s'
  end.

(** [needle in hay] for strings. *)
Fixpoint contains (needle hay : pystr) : bool :=
  startswith needle hay ||
  match hay with
  | [] => false
  | _ :: hay' => contains needle hay'
  end.

(** [s.split(c)] for a one-character separator; never the empty list.
    [cur] is the piece being read, reversed. *)
Fixpoint split_on_from (c : N) (cur : pystr) (s : pystr) : list pystr :=
  match s with
  | [] => [rev cur]
  | x :: s' =>
      if (x =? c)%N then rev cur :: split_on_from c [] s'
      else split_on_from c (x :: cur) s'
  end.

Definition split_on (c : N) (s : pystr) : list pystr := split_on_from c [] s.

(** [c in s] for a one-character [c]. *)
Definition has_char (c : N) (s : pystr) : bool := existsb (N.eqb c) s.

(** [str.lower] on one code point. A-Z map to a-z; U+0130 maps to "i"
    followed by U+0307 and U+212A (Kelvin sign) to "k": these are the only
    non-ASCII code points whose lower case contains an ASCII character.
    The lower case of every other non-ASCII code point is non-ASCII and is
    left as it is here: the source only tests the result against ASCII
    literals ([in], and dictionary lookup), which this cannot change. *)
Definition lower_cp (c : N) : pystr :=
  (if (65 <=? c) && (c <=? 90) then [c + 32]
   else if c =? 304 then [105; 775]
   else if c =? 8490 then [107]
   else [c])%N.

Definition lower (s : pystr) : pystr := flat_map lower_cp s.

Definition QUESTION : N := 63.   (* "?" *)

(** [len] of a string or a list. *)
Definition len {A} (l : list A) : Z := Z.of_nat (length l).

End PyStr.
Import PyStr.

(* ===================================================================== *)
(** ** The parsed page (BeautifulSoup) *)
(* ===================================================================== *)

Module Soup.

(** The attributes of a tag that the scraper reads. [class] is
    multi-valued in BeautifulSoup (a list of the whitespace-separated
    class names); [href] and [datetime] are plain strings. A field is
    [None] when the attribute is absent. *)
Record attrs := {
  a_class : option (list pystr);
  a_href : option pystr;
  a_datetime : option pystr
}.

(** A node of the tree: a string (what [get_text] collects) or a tag. *)
Inductive node :=
| NavigableString (s : pystr)
| Tag (name : pystr) (at_ : attrs) (contents : list node).

Definition no_attrs : attrs :=
  {| a_class := None; a_href := None; a_datetime := None |}.

(** A node followed by its descendants, in document order. *)
Fixpoint self_and_descendants (n : node) : list node :=
  n :: match n with
       | NavigableString _ => []
       | Tag _ _ cs => flat_map self_and_descendants cs
       end.

(** [tag.descendants]: the tag itself is not among them. *)
Definition descendants (n : node) : list node :=
  match n with
  | NavigableString _ => []
  | Tag _ _ cs => flat_map self_and_descendants cs
  end.

(** [tag.get_text()]: the strings below the tag, concatenated. *)
Definition get_text (n : node) : pystr :=
  flat_map (fun d => match d with NavigableString s => s | Tag _ _ _ => [] end)
           (descendants n).

(** What an attribute filter is matched against. *)
Inductive attr_value :=
| AttrAbsent
| AttrStr (s : pystr)
| AttrList (l : list pystr).

Inductive attr_name := A_class | A_href.

Definition get_attr (a : attrs) (k : attr_name) : attr_value :=
  match k with
  | A_class => match a_class a with Some l => AttrList l | None => AttrAbsent end
  | A_href => match a_href a with Some s => AttrStr s | None => AttrAbsent end
  end.

(** The three kinds of filter the source passes to [find]: a string
    ([class_='...']), a function (the lambdas; it receives [None] for an
    absent attribute) and [True] ([href=True]). *)
Inductive matcher :=
| MatchStr (s : pystr)
| MatchFun (f : option pystr -> bool)
| MatchTrue.

(** [SoupStrainer._matches] on a single value. *)
Definition matches_scalar (markup : option pystr) (m : matcher) : bool :=
  match m with
  | MatchTrue => match markup with Some _ => true | None => false end
  | MatchFun f => f markup
  | MatchStr s =>
      match markup with
      | None => negb (truthy s)
      | Some v => bool_decide (v = s)
      end
  end.

(** [SoupStrainer._matches]: a multi-valued attribute matches when one of
    its values does, or when the values joined by a space do. *)
Definition matches (v : attr_value) (m : matcher) : bool :=
  match v with
  | AttrAbsent => matches_scalar None m
  | AttrStr s => matches_scalar (Some s) m
  | AttrList l =>
      existsb (fun item => matches_scalar (Some item) m) l
      || matches_scalar (Some (join (lit " ") l)) m
  end.

(** Does a node pass [find(name, attrs)]? Only tags do. *)
Definition search_tag (name : pystr) (filters : list (attr_name * matcher))
    (n : node) : bool :=
  match n with
  | NavigableString _ => false
  | Tag nm a _ =>
      bool_decide (nm = name)
      && forallb (fun '(k, m) => matches (get_attr a k) m) filters
  end.

(** [tag.find(name, attrs)]: the first matching descendant. *)
Definition find (name : pystr) (filters : list (attr_name * matcher))
    (n : node) : option node :=
  List.find (search_tag name filters) (descendants n).

(** [soup.find_all(name)] on the document, whose top-level nodes are [doc]. *)
Definition find_all (name : pystr) (doc : list node) : list node :=
  List.filter (search_tag name []) (flat_map self_and_descendants doc).

(** [tag.get('href')] and [tag.get('datetime')]. *)
Definition get_href (n : node) : option pystr :=
  match n with Tag _ a _ => a_href a | NavigableString _ => None end.

Definition get_datetime (n : node) : option pystr :=
  match n with Tag _ a _ => a_datetime a | NavigableString _ => None end.

(** [a or b] on the results of [find]: a [Tag] is always truthy. *)
Definition or_else (a b : option node) : option node :=
  match a with Some _ => a | None => b end.

End Soup.
Import Soup.

(* ===================================================================== *)
(** ** Record extraction: [_clean_text], [_parse_job_card], [parse_jobs] *)
(* ===================================================================== *)

Module Extractor.

(** A job is a Python dict from field names to strings. *)
Abbreviation job := (gmap string pystr).

(** The sentinel ["N/A"]. *)
Definition NA : pystr := lit "N/A".

Definition SITE : pystr := lit "https://www.linkedin.com".

(** [_clean_text]. *)
Definition _clean_text (text : pystr) : pystr :=
  if negb (truthy text) then NA
  else
    let cleaned := join (lit " ") (split_ws text) in
    if truthy cleaned then strip cleaned else NA.

(** [lambda x: x and marker in x.lower() if x else False] *)
Definition class_has (marker : pystr) : matcher :=
  MatchFun (fun x =>
    match x with
    | Some s => if truthy s then contains marker (lower s) else false
    | None => false
    end).

(** [lambda x: x and '/jobs/view/' in x if x else False] *)
Definition href_has_jobs_view : matcher :=
  MatchFun (fun x =>
    match x with
    | Some s => if truthy s then contains (lit "/jobs/view/") s else false
    | None => false
    end).

(** The four fallback chains of [_parse_job_card], in the source's order. *)
Definition title_elem (card : node) : option node :=
  or_else (find (lit "h3") [(A_class, MatchStr (lit "base-search-card__title"))] card)
  (or_else (find (lit "h3") [(A_class, class_has (lit "title"))] card)
  (or_else (find (lit "h3") [] card)
           (find (lit "a") [(A_class, MatchStr (lit "base-card__full-link"))] card))).

Definition company_elem (card : node) : option node :=
  or_else (find (lit "h4") [(A_class, MatchStr (lit "base-search-card__subtitle"))] card)
  (or_else (find (lit "a") [(A_class, MatchStr (lit "hidden-nested-link"))] card)
  (or_else (find (lit "h4") [] card)
           (find (lit "a") [(A_class, class_has (lit "company"))] card))).

Definition location_elem (card : node) : option node :=
  or_else (find (lit "span") [(A_class, MatchStr (lit "job-search-card__location"))] card)
  (or_else (find (lit "span") [(A_class, class_has (lit "location"))] card)
           (find (lit "span") [(A_class, MatchStr (lit "base-search-card__metadata"))] card)).

Definition url_elem (card : node) : option node :=
  or_else (find (lit "a") [(A_class, MatchStr (lit "base-card__full-link"))] card)
  (or_else (find (lit "a") [(A_href, href_has_jobs_view)] card)
           (find (lit "a") [(A_href, MatchTrue)] card)).

Definition date_elem (card : node) : option node :=
  or_else (find (lit "time") [(A_class, MatchStr (lit "job-search-card__listdate"))] card)
  (or_else (find (lit "time") [(A_class, MatchStr (lit "job-search-card__listdate--new"))] card)
  (or_else (find (lit "time") [] card)
           (find (lit "span") [(A_class, class_has (lit "date"))] card))).

(** [self._clean_text(elem.get_text()) if elem else "N/A"] *)
Definition text_or_NA (elem : option node) : pystr :=
  match elem with
  | Some e => _clean_text (get_text e)
  | None => NA
  end.

(** The [job_title] field as the source computes it. *)
Definition extract_title (card : node) : pystr := text_or_NA (title_elem card).

(** [job_url.split('?')[0] if '?' in job_url else job_url] *)
Definition cut_query (job_url : pystr) : pystr :=
  if has_char QUESTION job_url
  then hd [] (split_on QUESTION job_url)
  else job_url.

(** Lines 755-759: the href made absolute and cut at the first "?". *)
Definition normalize_href (href : pystr) : pystr :=
  let job_url :=
    if startswith (lit "/") href then SITE ++ href
    else if negb (startswith (lit "http") href) then SITE ++ lit "/" ++ href
    else href in
  cut_query job_url.

(** The [url] field as the source computes it (lines 748-761). *)
Definition extract_url (card : node) : pystr :=
  match url_elem card with
  | Some e =>
      match get_href e with
      | Some href => if truthy href then normalize_href href else NA
      | None => NA
      end
  | None => NA
  end.

(** The [posted_date] field: [date_elem.get('datetime') or
    self._clean_text(date_elem.get_text())]. *)
Definition extract_posted_date (card : node) : pystr :=
  match date_elem card with
  | Some e =>
      match get_datetime e with
      | Some d => if truthy d then d else _clean_text (get_text e)
      | None => _clean_text (get_text e)
      end
  | None => NA
  end.

(** [_parse_job_card]: [None] when the card is not accepted. *)
Definition _parse_job_card (card : node) : option job :=
  let job_data : job := <["job_title" := extract_title card]> ∅ in
  if bool_decide (job_data !!! "job_title" = NA) || (len (job_data !!! "job_title") <? 2)
  then None
  else
    let job_data := <["company" := text_or_NA (company_elem card)]> job_data in
    let job_data := <["location" := text_or_NA (location_elem card)]> job_data in
    let job_data := <["url" := extract_url card]> job_data in
    let job_data := <["posted_date" := extract_posted_date card]> job_data in
    if negb (bool_decide (job_data !!! "job_title" = NA))
       && negb (bool_decide (job_data !!! "url" = NA))
    then Some job_data
    else None.

(** The loop of [parse_jobs] over [soup.find_all('li')]: every [li] is a
    candidate card, the accepted ones are kept in document order. *)
Definition parse_cards (doc : list node) : list job :=
  omap _parse_job_card (find_all (lit "li") doc).

(** [parse_jobs]. [BeautifulSoup] is the HTML parser
    ([BeautifulSoup(html_content, 'html.parser')]), from the page text to
    the top-level nodes of the document. *)
Definition parse_jobs (BeautifulSoup : pystr -> list node)
    (html_content : pystr) : list job :=
  if negb (truthy html_content) then []
  else parse_cards (BeautifulSoup html_content).

(** [job.get('url', '')] *)
Definition get_url (j : job) : pystr := default [] (j !! "url").

(** An absolute URL in the sense of RFC 3986: a scheme (a letter, then
    letters, digits, "+", "-" or "."), then "://". *)
Definition is_alpha (c : N) : bool :=
  ((65 <=? c) && (c <=? 90) || (97 <=? c) && (c <=? 122))%N.

Definition is_scheme_char (c : N) : bool :=
  (is_alpha c || (48 <=? c) && (c <=? 57) || (c =? 43) || (c =? 45) || (c =? 46))%N.

Fixpoint scheme_rest (s : pystr) : bool :=
  match s with
  | [] => false
  | c :: s' =>
      if (c =? 58)%N then startswith (lit "//") s'
      else is_scheme_char c && scheme_rest s'
  end.

Definition is_absolute_url (s : pystr) : bool :=
  match s with
  | [] => false
  | c :: s' => is_alpha c && scheme_rest s'
  end.

End Extractor.
Import Extractor.

(* ===================================================================== *)
(** ** Deduplication: [_deduplicate_jobs] *)
(* ===================================================================== *)

Module Dedup.

(** The [for job in jobs] loop, with its two accumulators. *)
Fixpoint dedup_loop (seen_urls : gset pystr) (unique_jobs : list job)
    (jobs : list job) : list job :=
  match jobs with
  | [] => unique_jobs
  | job :: rest =>
      let url := get_url job in
      if truthy url && bool_decide (url ∉ seen_urls)
      then dedup_loop ({[url]} ∪ seen_urls) (unique_jobs ++ [job]) rest
      else dedup_loop seen_urls unique_jobs rest
  end.

Definition _deduplicate_jobs (jobs : list job) : list job :=
  dedup_loop ∅ [] jobs.

End Dedup.
Import Dedup.

(* ===================================================================== *)
(** ** Transport: [NetworkManager] *)
(* ===================================================================== *)

Module Transport.

(** The query parameters of one GET ([params] of [fetch_job_page]). *)
Record params := {
  p_keywords : pystr;
  p_location : pystr;
  p_start : Z;
  p_f_E : option pystr
}.

(** What the scraper reads of a [requests.Response]. *)
Record response := {
  status_code : Z;
  text : pystr
}.

(** The exception classes of [requests.exceptions] that [session.get]
    and [raise_for_status] raise. *)
Inductive req_exc :=
| req_RequestException
| req_HTTPError
| req_ConnectionError
| req_ProxyError
| req_SSLError
| req_Timeout
| req_ConnectTimeout
| req_ReadTimeout
| req_TooManyRedirects.

(** [issubclass c d] in [requests.exceptions]:
    [HTTPError], [ConnectionError], [Timeout] and [TooManyRedirects] derive
    from [RequestException]; [ProxyError] and [SSLError] from
    [ConnectionError]; [ConnectTimeout] from [ConnectionError] and
    [Timeout]; [ReadTimeout] from [Timeout]. *)
Definition issubclass (c d : req_exc) : bool :=
  match d, c with
  | req_RequestException, _ => true
  | req_HTTPError, req_HTTPError => true
  | req_ConnectionError,
    (req_ConnectionError | req_ProxyError | req_SSLError | req_ConnectTimeout) => true
  | req_ProxyError, req_ProxyError => true
  | req_SSLError, req_SSLError => true
  | req_Timeout, (req_Timeout | req_ConnectTimeout | req_ReadTimeout) => true
  | req_ConnectTimeout, req_ConnectTimeout => true
  | req_ReadTimeout, req_ReadTimeout => true
  | req_TooManyRedirects, req_TooManyRedirects => true
  | _, _ => false
  end.

(** One call of [session.get]: it returns a response, or raises an
    exception of [requests.exceptions] whose [response] attribute may be
    set. What [session.get] raises from outside that hierarchy (the
    [ValueError] for a timeout that is not positive) is caught by no
    clause of [fetch_page] and is not part of the model. *)
Inductive get_outcome :=
| Returns (r : response)
| Raises (c : req_exc) (resp : option response).

(** The exceptions that leave the scraper's own functions: the three
    [ScraperError] subclasses raised by [fetch_page], Python's builtin
    [ConnectionError], and [InputValidationError]. *)
Inductive error :=
| RateLimitError
| AccessBlockedError
| SSLError
| ConnectionError
| InputValidationError.

(** Does [response.raise_for_status()] raise ([HTTPError], with the
    response attached)? *)
Definition raises_for_status (r : response) : bool :=
  (400 <=? status_code r) && (status_code r <? 600).

(** Truthiness of a [requests.Response]: [Response.__bool__] returns
    [self.ok], which is [False] exactly when [raise_for_status] raises. *)
Definition response_bool (r : response) : bool := negb (raises_for_status r).

(** What the network can be observed to do, in order. *)
Inductive event :=
| EvGet (p : params)          (* session.get(BASE_URL, params, timeout) *)
| EvConnect (host : pystr)    (* socket.create_connection((host, 53), 3) *)
| EvSleepRetry                (* time.sleep(2), between attempts *)
| EvSleepBackoff              (* time.sleep(delay * 2), after a failed page *)
| EvSleepDelay.               (* time.sleep(delay), between pages *)

Definition is_get (e : event) : bool :=
  match e with EvGet _ => true | _ => false end.

(** A value or a raised exception. *)
Inductive res (A : Type) :=
| Ret (a : A)
| Exn (e : error).
Arguments Ret {A} a.
Arguments Exn {A} e.

Section Network.

(** The network: any deterministic state machine answering GETs and
    connection probes. *)
Variable net : Type.
Variable session_get : net -> params -> get_outcome * net.
Variable create_connection : net -> pystr -> bool * net.

(** The state threaded through the run: the network and what was done. *)
Record io := { world : net; trace : list event }.

Definition log (e : event) (s : io) : io :=
  {| world := world s; trace := trace s ++ [e] |}.

Definition do_get (p : params) (s : io) : get_outcome * io :=
  let '(out, w) := session_get (world s) p in
  (out, {| world := w; trace := trace s ++ [EvGet p] |}).

Definition do_connect (host : pystr) (s : io) : bool * io :=
  let '(ok, w) := create_connection (world s) host in
  (ok, {| world := w; trace := trace s ++ [EvConnect host] |}).

Definition PROBE_HOSTS : list pystr :=
  [lit "8.8.8.8"; lit "1.1.1.1"; lit "208.67.222.222"].

(** [check_internet_connection]: the first host that answers decides. *)
Fixpoint probe (hosts : list pystr) (s : io) : bool * io :=
  match hosts with
  | [] => (false, s)
  | h :: hosts' =>
      let '(ok, s1) := do_connect h s in
      if ok then (true, s1) else probe hosts' s1
  end.

Definition check_internet_connection (s : io) : bool * io :=
  probe PROBE_HOSTS s.

(** [if attempt < max_retries - 1: time.sleep(2)] *)
Definition retry_sleep (attempt max_retries : Z) (s : io) : io :=
  if attempt <? max_retries - 1 then log EvSleepRetry s else s.

(** How one attempt ends: [fetch_page] returns or raises, or the loop
    goes on ([continue]). *)
Inductive attempt_result :=
| Finished (r : res (option pystr))
| Continue.

(** The [except] clauses of [fetch_page], tried in the source's order on
    an exception of class [c] whose [response] attribute is [resp]. *)
Definition handle (attempt max_retries : Z) (c : req_exc)
    (resp : option response) (s : io) : attempt_result * io :=
  if issubclass c req_Timeout then
    (Continue, retry_sleep attempt max_retries s)
  else if issubclass c req_ConnectionError then
    let '(connected, s1) := check_internet_connection s in
    if negb connected then (Finished (Exn ConnectionError), s1)
    else (Continue, retry_sleep attempt max_retries s1)
  else if issubclass c req_HTTPError then
    (* status_code = e.response.status_code if e.response else None *)
    let status :=
      match resp with
      | Some r => if response_bool r then Some (status_code r) else None
      | None => None
      end in
    if bool_decide (status = Some 429) then (Finished (Exn RateLimitError), s)
    else if bool_decide (status = Some 403) then (Finished (Exn AccessBlockedError), s)
    else (Continue, retry_sleep attempt max_retries s)
  else if issubclass c req_SSLError then
    (Finished (Exn SSLError), s)
  else
    (Continue, retry_sleep attempt max_retries s).

(** The body of the [for attempt in range(max_retries)] loop. *)
Definition attempt_once (attempt max_retries : Z) (p : params) (s : io)
    : attempt_result * io :=
  let '(out, s1) := do_get p s in
  match out with
  | Returns r =>
      if raises_for_status r then handle attempt max_retries req_HTTPError (Some r) s1
      else if status_code r =? 200 then (Finished (Ret (Some (text r))), s1)
      else (Finished (Ret None), s1)
  | Raises c resp => handle attempt max_retries c resp s1
  end.

(** The loop, [n] attempts from [attempt] on; [return None] after it. *)
Fixpoint attempts (n : nat) (attempt max_retries : Z) (p : params) (s : io)
    : res (option pystr) * io :=
  match n with
  | O => (Ret None, s)
  | S n' =>
      match attempt_once attempt max_retries p s with
      | (Finished r, s1) => (r, s1)
      | (Continue, s1) => attempts n' (attempt + 1) max_retries p s1
      end
  end.

(** [NetworkManager.fetch_page(BASE_URL, params)]. *)
Definition fetch_page (max_retries : Z) (p : params) (s : io)
    : res (option pystr) * io :=
  attempts (Z.to_nat max_retries) 0 max_retries p s.

End Network.

Arguments world {net} _.
Arguments trace {net} _.

End Transport.
Import Transport.

(* ===================================================================== *)
(** ** The scraper: [LinkedInJobScraper.fetch_job_page] and [scrape] *)
(* ===================================================================== *)

Module Scraper.

(** The one configuration value that decides control flow,
    [config.get('max_retries', 3)]. Timeouts and delays only set how long
    the run waits; logging and the progress bar only observe it. *)
Record Config := { max_retries : Z }.

(** The scraper object: its configuration and [self.jobs]. *)
Record scraper := { config : Config; jobs : list job }.

Definition JOBS_PER_PAGE : Z := 25.

Definition EXPERIENCE_LEVELS : gmap pystr pystr :=
  list_to_map
    [(lit "internship", lit "1"); (lit "entry", lit "2");
     (lit "associate", lit "3"); (lit "mid-senior", lit "4");
     (lit "director", lit "5"); (lit "executive", lit "6")].

(** The locals of [scrape] that the loop updates. *)
Record run_state := {
  all_jobs : list job;
  start : Z;
  consecutive_empty : nat
}.

Definition max_consecutive_empty : nat := 3.

(** Where the [while] loop was left: its guard, or one of its three
    [break]s (lines 853, 867 and 880). *)
Inductive stop_site :=
| WhileGuard
| BreakFailedRequests
| BreakNoMoreJobs
| BreakTarget.

(** The spec's names for why a run is done. *)
Inductive done_reason :=
| TargetReached
| TooManyConsecutiveEmptyPages.

Definition reason_of (site : stop_site) : done_reason :=
  match site with
  | WhileGuard | BreakTarget => TargetReached
  | BreakFailedRequests | BreakNoMoreJobs => TooManyConsecutiveEmptyPages
  end.

(** How one iteration of the loop ends. An exception leaves [scrape]
    from inside the iteration; [run_state] is then the locals it unwinds. *)
Inductive iter_result :=
| IterRaise (e : error) (st : run_state)
| IterBreak (site : stop_site) (st : run_state)
| IterContinue (st : run_state).

(** How the loop ends. *)
Inductive loop_exit :=
| Stopped (site : stop_site)
| Raised (e : error).

(** [l[:n]] *)
Definition slice_to {A} (n : Z) (l : list A) : list A :=
  if 0 <=? n then take (Z.to_nat n) l
  else take (Z.to_nat (Z.of_nat (length l) + n)) l.

(** The query of [fetch_job_page]: [f_E] is set when the experience
    level, lower-cased, is a key of [EXPERIENCE_LEVELS]. *)
Definition query (keywords location : pystr) (start : Z)
    (experience_level : option pystr) : params :=
  {| p_keywords := keywords; p_location := location; p_start := start;
     p_f_E := match experience_level with
              | Some e => if truthy e then EXPERIENCE_LEVELS !! lower e else None
              | None => None
              end |}.

Section Run.

Variable net : Type.
Variable session_get : net -> params -> get_outcome * net.
Variable create_connection : net -> pystr -> bool * net.
Variable BeautifulSoup : pystr -> list node.

Abbreviation io := (Transport.io net).

(** [fetch_job_page] *)
Definition fetch_job_page (self : scraper) (keywords location : pystr)
    (start : Z) (experience_level : option pystr) (s : io)
    : res (option pystr) * io :=
  fetch_page net session_get create_connection (max_retries (config self))
    (query keywords location start experience_level) s.

Section Loop.

Variable self : scraper.
Variables job_title location : pystr.
Variable num_jobs : Z.
Variable experience_level : option pystr.

Definition set_consecutive_empty (n : nat) (st : run_state) : run_state :=
  {| all_jobs := all_jobs st; start := start st; consecutive_empty := n |}.

(** Lines 877-885: advance the offset, stop at the target, else wait. *)
Definition next_page (st : run_state) (s : io) : iter_result * io :=
  let st := {| all_jobs := all_jobs st; start := start st + JOBS_PER_PAGE;
               consecutive_empty := consecutive_empty st |} in
  if len (all_jobs st) >=? num_jobs then (IterBreak BreakTarget st, s)
  else (IterContinue st, log net EvSleepDelay s).

(** The body of the [while] loop (lines 842-885). *)
Definition scrape_iter (st : run_state) (s : io) : iter_result * io :=
  let '(fetched, s1) :=
    fetch_job_page self job_title location (start st) experience_level s in
  match fetched with
  | Exn e => (IterRaise e st, s1)
  | Ret None =>
      let st := set_consecutive_empty (consecutive_empty st + 1) st in
      if (max_consecutive_empty <=? consecutive_empty st)%nat
      then (IterBreak BreakFailedRequests st, s1)
      else (IterContinue st, log net EvSleepBackoff s1)
  | Ret (Some html_content) =>
      let page_jobs := parse_jobs BeautifulSoup html_content in
      match page_jobs with
      | [] =>
          let st := set_consecutive_empty (consecutive_empty st + 1) st in
          if (max_consecutive_empty <=? consecutive_empty st)%nat
          then (IterBreak BreakNoMoreJobs st, s1)
          else next_page st s1
      | _ :: _ =>
          let st := {| all_jobs := all_jobs st ++ page_jobs; start := start st;
                       consecutive_empty := 0 |} in
          next_page st s1
      end
  end.

(** [while len(all_jobs) < num_jobs: ...], at most [fuel] iterations;
    [None] when they do not suffice. *)
Fixpoint scrape_loop (fuel : nat) (st : run_state) (s : io)
    : option (loop_exit * run_state * io) :=
  match fuel with
  | O => None
  | S fuel' =>
      if len (all_jobs st) <? num_jobs then
        match scrape_iter st s with
        | (IterRaise e st1, s1) => Some (Raised e, st1, s1)
        | (IterBreak site st1, s1) => Some (Stopped site, st1, s1)
        | (IterContinue st1, s1) => scrape_loop fuel' st1 s1
        end
      else Some (Stopped WhileGuard, st, s)
  end.

(** The state after [k] full iterations, when the loop gets that far. *)
Fixpoint iterate (k : nat) (st : run_state) (s : io) : option (run_state * io) :=
  match k with
  | O => Some (st, s)
  | S k' =>
      if len (all_jobs st) <? num_jobs then
        match scrape_iter st s with
        | (IterContinue st1, s1) => iterate k' st1 s1
        | _ => None
        end
      else None
  end.

(** Does the iteration that starts in [st] yield no accepted record:
    the fetch gave no page, or the page parsed to nothing? *)
Definition yields_nothing (st : run_state) (s : io) : bool :=
  match fetch_job_page self job_title location (start st) experience_level s with
  | (Ret None, _) => true
  | (Ret (Some html_content), _) =>
      match parse_jobs BeautifulSoup html_content with
      | [] => true
      | _ :: _ => false
      end
  | (Exn _, _) => false
  end.

(** Do the next [n] iterations, as far as the loop goes on, each yield
    no accepted record? *)
Fixpoint next_yield_nothing (n : nat) (st : run_state) (s : io) : bool :=
  match n with
  | O => true
  | S n' =>
      yields_nothing st s
      && match scrape_iter st s with
         | (IterContinue st1, s1) => next_yield_nothing n' st1 s1
         | _ => true
         end
  end.

Definition initial_state : run_state :=
  {| all_jobs := []; start := 0; consecutive_empty := 0 |}.

(** Iterations that always suffice from [st] (see [scrape_loop_enough]). *)
Definition iterations_bound (st : run_state) : nat :=
  4 * Z.to_nat (num_jobs - len (all_jobs st)) + (3 - consecutive_empty st) + 1.

(** Lines 891-899: deduplicate, then trim to the requested number. *)
Definition finish (all_jobs : list job) : list job :=
  let all_jobs := _deduplicate_jobs all_jobs in
  if len all_jobs >? num_jobs then slice_to num_jobs all_jobs else all_jobs.

(** [scrape]: what it returns or raises, the scraper object afterwards
    ([self.jobs] is assigned on the normal path only), and the network
    activity. An exception raised by [fetch_page] is not caught: the
    [try] of the loop has a [finally] clause only. *)
Definition scrape (s : io) : option (res (list job) * scraper * io) :=
  match scrape_loop (iterations_bound initial_state) initial_state s with
  | None => None
  | Some (Raised e, _, s1) => Some (Exn e, self, s1)
  | Some (Stopped _, st, s1) =>
      let all_jobs := finish (all_jobs st) in
      Some (Ret all_jobs, {| config := config self; jobs := all_jobs |}, s1)
  end.

End Loop.
End Run.
End Scraper.
Import Scraper.

(* ===================================================================== *)
(** ** User input: [validate_job_count] *)
(* ===================================================================== *)

Module Input.

(** Python's [int(str)] on ASCII decimal literals: optional surrounding
    whitespace, an optional sign, digits with single underscores between
    them. [None] stands for [ValueError]. *)
Fixpoint digits_value (acc : Z) (after_digit : bool) (s : pystr) : option Z :=
  match s with
  | [] => if after_digit then Some acc else None
  | c :: s' =>
      if ((48 <=? c) && (c <=? 57))%N
      then digits_value (10 * acc + Z.of_N (c - 48)) true s'
      else if (c =? 95)%N && after_digit then digits_value acc false s'
      else None
  end.

(** The whitespace [int] skips around the literal: that of
    [str.isspace] without the separators U+001C to U+001F, which [int]
    rejects. *)
Definition int_space (c : N) : bool :=
  isspace c && negb ((28 <=? c) && (c <=? 31))%N.

Fixpoint int_lskip (s : pystr) : pystr :=
  match s with
  | [] => []
  | c :: s' => if int_space c then int_lskip s' else s
  end.

Definition int_ascii (s : pystr) : option Z :=
  match rev (int_lskip (rev (int_lskip s))) with
  | 43%N :: ds => digits_value 0 false ds
  | 45%N :: ds => Z.opp <$> digits_value 0 false ds
  | ds => digits_value 0 false ds
  end.

Section Validate.

(** [int]: Python's conversion of a string to an integer ([None] for
    [ValueError]). It also accepts the decimal digits of other scripts,
    so it is kept abstract; [int_ascii] is its ASCII part. *)
Variable int : pystr -> option Z.

(** [validate_job_count] *)
Definition validate_job_count (value : pystr) (max_limit : Z) : res Z :=
  if negb (truthy (strip value)) then Ret 50
  else
    match int value with
    | None => Exn InputValidationError
    | Some num =>
        if num <=? 0 then Exn InputValidationError
        else if num >? max_limit then Exn InputValidationError
        else Ret num
    end.

End Validate.

(** The title prompt of [get_user_input]: lines are read and stripped
    until one is non-empty. [inputs] are the lines the user types; [None]
    when they run out ([input] raises [EOFError]). *)
Fixpoint prompt_job_title (inputs : list pystr) : option (pystr * list pystr) :=
  match inputs with
  | [] => None
  | line :: rest =>
      let job_title := strip line in
      if negb (truthy job_title) then prompt_job_title rest
      else Some (job_title, rest)
  end.

End Input.
Import Input.

(* ===================================================================== *)
(** ** File names: [PathManager.sanitize_filename] and
       [generate_output_filename] *)
(* ===================================================================== *)

Module PathManager.

(** The character class of [invalid_chars]: backslash, slash, colon,
    star, question mark, double quote, the angle brackets, bar and NUL. *)
Definition invalid_char (c : N) : bool :=
  bool_decide (c ∈ [92; 47; 58; 42; 63; 34; 60; 62; 124; 0]%N).

(** [re.sub(invalid_chars, '_', name)] *)
Definition replace_invalid (name : pystr) : pystr :=
  List.map (fun c => if invalid_char c then 95%N else c) name.

(** The characters of [strip(' .')]. *)
Definition space_or_dot (c : N) : bool := ((c =? 32) || (c =? 46))%N.

Fixpoint lstrip_chars (chars : N -> bool) (s : pystr) : pystr :=
  match s with
  | [] => []
  | c :: s' => if chars c then lstrip_chars chars s' else s
  end.

(** [s.strip(chars)] *)
Definition strip_chars (chars : N -> bool) (s : pystr) : pystr :=
  rev (lstrip_chars chars (rev (lstrip_chars chars s))).

(** [sanitize_filename] *)
Definition sanitize_filename (name : pystr) : pystr :=
  let sanitized := replace_invalid name in
  let sanitized := strip_chars space_or_dot sanitized in
  let sanitized := if len sanitized >? 50 then take 50 sanitized else sanitized in
  if truthy sanitized then sanitized else lit "untitled".

(** [generate_output_filename]; [timestamp] is what
    [datetime.now().strftime('%Y-%m-%d_%H-%M-%S')] returns. *)
Definition generate_output_filename (timestamp : pystr)
    (job_title location extension : pystr) : pystr :=
  let safe_title := sanitize_filename job_title in
  let safe_location := sanitize_filename location in
  lit "linkedin_jobs_" ++ safe_title ++ lit "_" ++ safe_location
    ++ lit "_" ++ timestamp ++ lit "." ++ extension.

End PathManager.
Import PathManager.

(* ===================================================================== *)
(** ** The prompts: [get_user_input] *)
(* ===================================================================== *)

Module UserInput.

(** The configuration values [get_user_input] decides with:
    [default_location], [max_jobs_limit] and [export_json]. *)
Record settings := {
  default_location : pystr;
  max_jobs_limit : Z;
  export_json : bool
}.

(** [experience_map]: the menu entry typed, to the experience level. *)
Definition experience_map : gmap pystr (option pystr) :=
  list_to_map
    [(lit "1", Some (lit "internship")); (lit "2", Some (lit "entry"));
     (lit "3", Some (lit "associate")); (lit "4", Some (lit "mid-senior"));
     (lit "5", Some (lit "director")); (lit "6", Some (lit "executive"));
     (lit "7", None); (lit "", None)].

(** [experience_map.get(exp_input, None)] *)
Definition experience_of (exp_input : pystr) : option pystr :=
  default None (experience_map !! exp_input).

Section GetUserInput.

Variable int : pystr -> option Z.

(** The [while True] loop around [validate_job_count]: lines are read
    until one is accepted. [None] when the lines run out. *)
Fixpoint prompt_num_jobs (max_limit : Z) (inputs : list pystr)
    : option (Z * list pystr) :=
  match inputs with
  | [] => None
  | line :: rest =>
      match validate_job_count int (strip line) max_limit with
      | Ret num_jobs => Some (num_jobs, rest)
      | Exn _ => prompt_num_jobs max_limit rest
      end
  end.

(** [get_user_input] on the lines the user types, in order: the search
    parameters, or [None] when the lines run out ([input] raises
    [EOFError]). What it prints is left out. *)
Definition get_user_input (cfg : settings) (inputs : list pystr)
    : option (pystr * pystr * Z * option pystr * bool) :=
  match prompt_job_title inputs with
  | None => None
  | Some (job_title, inputs) =>
  match inputs with
  | [] => None
  | line :: inputs =>
  let location := strip line in
  let location := if negb (truthy location) then default_location cfg else location in
  match prompt_num_jobs (max_jobs_limit cfg) inputs with
  | None => None
  | Some (num_jobs, inputs) =>
  match inputs with
  | [] => None
  | line :: inputs =>
  let experience_level := experience_of (strip line) in
  match inputs with
  | [] => None
  | line :: _ =>
  let export_json_input := lower (strip line) in
  let export_json :=
    if negb (truthy export_json_input) then export_json cfg
    else bool_decide (export_json_input = lit "y") in
  Some (job_title, location, num_jobs, experience_level, export_json)
  end end end end end.

End GetUserInput.
End UserInput.
Import UserInput.

(* ===================================================================== *)
(** ** Configuration: [Config] *)
(* ===================================================================== *)

Module Configuration.

(** A JSON value, as [json.load] gives it. A float is kept as the text
    of its literal. *)
Inductive value :=
| VNull
| VBool (b : bool)
| VInt (z : Z)
| VFloat (literal : pystr)
| VStr (s : pystr)
| VList (l : list value)
| VDict (m : list (string * value)).

Definition DEFAULT_CONFIG : gmap string value :=
  list_to_map
    [("default_location", VStr (lit "India"));
     ("default_num_jobs", VInt 50);
     ("max_jobs_limit", VInt 500);
     ("output_folder", VStr (lit "job_results"));
     ("delay_between_requests", VFloat (lit "2.5"));
     ("max_retries", VInt 3);
     ("timeout_seconds", VInt 30);
     ("save_to_downloads", VBool true);
     ("export_json", VBool false);
     ("show_progress_bar", VBool true);
     ("log_to_file", VBool true);
     ("user_agent", VStr (lit "Mozilla/5.0 (Windows NT 10.0; Win64; x64) AppleWebKit/537.36 (KHTML, like Gecko) Chrome/120.0.0.0 Safari/537.36"))].

(** What [_load_config] finds at [config_path]: no file, a file it may
    not read ([PermissionError]), a file that is not JSON
    ([JSONDecodeError]), or a JSON object. A file holding another JSON
    value (the unpacking raises [TypeError]) and the other errors of
    [open] are not caught by [_load_config] and are left out. *)
Inductive config_file :=
| NoFile
| Unreadable
| Malformed
| Parsed (user_config : gmap string value).

(** [_load_config]: the configuration, and whether the default file is
    written ([_save_config(DEFAULT_CONFIG)]). In [{**DEFAULT_CONFIG,
    **user_config}] the user's entries win. *)
Definition _load_config (file : config_file) : gmap string value * bool :=
  match file with
  | Parsed user_config => (user_config ∪ DEFAULT_CONFIG, false)
  | Malformed => (DEFAULT_CONFIG, false)
  | Unreadable => (DEFAULT_CONFIG, false)
  | NoFile => (DEFAULT_CONFIG, true)
  end.

(** [Config.get(key, default)]; [None] is the default of [default]. *)
Definition get (config : gmap string value) (key : string) (fallback : value) : value :=
  default fallback (config !! key).

(** [Config.set(key, value)] *)
Definition set (config : gmap string value) (key : string) (v : value)
    : gmap string value :=
  <[key := v]> config.

End Configuration.

(* ===================================================================== *)
(** ** The Downloads folder: [PathManager.get_downloads_folder] *)
(* ===================================================================== *)

Module Downloads.

Section Folders.

(** Paths and the file system, as far as the function looks at them. *)
Variable path : Type.
Variable home : path.                      (* Path.home() *)
Variable child : path -> pystr -> path.    (* p / name *)
Variable of_str : pystr -> path.           (* Path(s) *)
Variable exists_ : path -> bool.           (* p.exists() *)

(** Lines 364-368: fall back to the home directory. *)
Definition or_home (downloads : path) : path :=
  if negb (exists_ downloads) then home else downloads.

(** [get_downloads_folder]; [system_name] is [platform.system()] and
    [xdg_download] is [os.environ.get('XDG_DOWNLOAD_DIR')]. *)
Definition get_downloads_folder (system_name : pystr) (xdg_download : option pystr)
    : path :=
  let system := lower system_name in
  if bool_decide (system = lit "windows") then
    let downloads := child home (lit "Downloads") in
    if negb (exists_ downloads) then
      let onedrive_downloads := child (child home (lit "OneDrive")) (lit "Downloads") in
      if exists_ onedrive_downloads then onedrive_downloads
      else or_home downloads
    else or_home downloads
  else if bool_decide (system = lit "darwin") then
    or_home (child home (lit "Downloads"))
  else
    match xdg_download with
    | Some x => if truthy x then or_home (of_str x)
                else or_home (child home (lit "Downloads"))
    | None => or_home (child home (lit "Downloads"))
    end.

End Folders.
End Downloads.

(* ===================================================================== *)
(** ** Vocabulary for the properties *)
(* ===================================================================== *)

Module Shapes.

(** No whitespace in a string. *)
Definition nospace (s : pystr) : bool := forallb (fun c => negb (isspace c)) s.

(** A word: non-empty, without whitespace. *)
Definition word (w : pystr) : Prop := w <> [] /\ nospace w = true.

(** The GETs and the retry sleeps among some events. *)
Definition count_gets (evs : list event) : nat := length (List.filter is_get evs).

Definition is_retry_sleep (e : event) : bool :=
  match e with EvSleepRetry => true | _ => false end.

Definition count_retry_sleeps (evs : list event) : nat :=
  length (List.filter is_retry_sleep evs).

(** What [fetch_page] does for the query [p]: GETs for [p], sleeps
    between attempts, and connection probes to the three hosts. *)
Definition fetch_event (p : params) (e : event) : Prop :=
  e = EvGet p \/ e = EvSleepRetry \/ exists h, h ∈ PROBE_HOSTS /\ e = EvConnect h.

(** The five keys of a record. *)
Definition RECORD_KEYS : gset string :=
  {[ "job_title"; "company"; "location"; "url"; "posted_date" ]}.

Section Worlds.

Context {net : Type}.
Variable session_get : net -> params -> get_outcome * net.
Variable create_connection : net -> pystr -> bool * net.

(** The world left when each of [hosts], tried in order from the world
    [w], refuses the connection; [None] when one of them answers. *)
Fixpoint refused (hosts : list pystr) (w : net) : option net :=
  match hosts with
  | [] => Some w
  | h :: hosts' =>
      match create_connection w h with
      | (false, w1) => refused hosts' w1
      | (true, _) => None
      end
  end.

(** The state after [k] attempts of [fetch_page], numbered from
    [attempt] on, each of which ended in [continue]; [None] when one of
    them returned or raised. *)
Fixpoint retried (k : nat) (attempt max_retries : Z) (p : params)
    (s : Transport.io net) : option (Transport.io net) :=
  match k with
  | O => Some s
  | S k' =>
      match Transport.attempt_once net session_get create_connection
              attempt max_retries p s with
      | (Continue, s1) => retried k' (attempt + 1) max_retries p s1
      | (Finished _, _) => None
      end
  end.

End Worlds.

End Shapes.
Import Shapes.

(* ===================================================================== *)
(** ** A scripted network and sample pages, to run the model *)
(* ===================================================================== *)

Module Scripted.

(** A network that plays back a script: every GET takes the next outcome
    (a read timeout once the script is over); connection probes succeed
    or fail as [online] says. *)
Record script := { gets : list get_outcome; online : bool }.

Definition session_get (w : script) (p : params) : get_outcome * script :=
  match gets w with
  | [] => (Raises req_ReadTimeout None, w)
  | o :: os => (o, {| gets := os; online := online w |})
  end.

Definition create_connection (w : script) (host : pystr) : bool * script :=
  (online w, w).

Definition fresh (w : script) : Transport.io script :=
  {| world := w; trace := [] |}.

(** [<tag class="cls">text</tag>] *)
Definition elem (tag cls text : string) : node :=
  Tag (lit tag)
      {| a_class := Some (split_ws (lit cls)); a_href := None; a_datetime := None |}
      [NavigableString (lit text)].

(** [<a href="href">text</a>] *)
Definition link (href text : string) : node :=
  Tag (lit "a")
      {| a_class := None; a_href := Some (lit href); a_datetime := None |}
      [NavigableString (lit text)].

Definition li (contents : list node) : node := Tag (lit "li") no_attrs contents.

(** A card as LinkedIn serves it. *)
Definition card (title company href : string) : node :=
  li [Tag (lit "div") no_attrs
        [Tag (lit "a")
             {| a_class := Some [lit "base-card__full-link"];
                a_href := Some (lit href); a_datetime := None |} [];
         elem "h3" "base-search-card__title" title;
         elem "h4" "base-search-card__subtitle" company;
         elem "span" "job-search-card__location" "Pune";
         Tag (lit "time")
             {| a_class := Some [lit "job-search-card__listdate"];
                a_href := None; a_datetime := Some (lit "2024-01-05") |}
             [NavigableString (lit " 3 days ago ")]]].

(** A parser given by a table from page texts to documents. *)
Definition parser_of (pages : list (pystr * list node)) (html : pystr) : list node :=
  match List.find (fun '(t, _) => bool_decide (t = html)) pages with
  | Some (_, doc) => doc
  | None => []
  end.

Definition page_A : list node :=
  [card "Python Developer" "Acme" "https://in.linkedin.com/jobs/view/1?refId=x"].
Definition page_B : list node :=
  [card "Rust Developer" "Initech" "/jobs/view/2?trk=y";
   li [NavigableString (lit "no title here")]].

(** One card per job id. *)
Definition numbered (ids : list string) : list node :=
  List.map (fun i => card (String.append "Developer " i) "Acme"
                          (String.append "/jobs/view/" i)) ids.

Definition page_8 : list node := numbered ["1"; "2"; "3"; "4"; "5"; "6"; "7"; "8"].
Definition page_5 : list node := numbered ["7"; "8"; "9"; "10"; "11"].

Definition pages : list (pystr * list node) :=
  [(lit "A", page_A); (lit "B", page_B); (lit "P8", page_8); (lit "P5", page_5)].

Definition ok (body : string) : get_outcome :=
  Returns {| status_code := 200; text := lit body |}.

Definition status (code : Z) : get_outcome :=
  Returns {| status_code := code; text := [] |}.

Definition cfg3 : scraper := {| config := {| max_retries := 3 |}; jobs := [] |}.

(** The title and url of each record, for reading results. *)
Definition titles_urls (js : list job) : list (pystr * pystr) :=
  (fun j => (j !!! "job_title", get_url j)) <$> js.

Definition run (self : scraper) (job_title : string) (num_jobs : Z) (w : script) :=
  scrape script session_get create_connection (parser_of pages) self
    (lit job_title) (lit "India") num_jobs None (fresh w).

(** The loop of the same run, before [scrape] finishes it. *)
Definition run_loop (self : scraper) (job_title : string) (num_jobs : Z) (w : script) :=
  scrape_loop script session_get create_connection (parser_of pages) self
    (lit job_title) (lit "India") num_jobs None
    (iterations_bound num_jobs initial_state) initial_state (fresh w).

(** The query of these runs at a given offset. *)
Definition q (job_title : string) (offset : Z) : params :=
  query (lit job_title) (lit "India") offset None.

(** Sample networks. *)
Definition net_AB : script := {| gets := [ok "A"; ok "B"]; online := true |}.
Definition net_AA : script := {| gets := [ok "A"; ok "A"]; online := true |}.
Definition net_A_then_down : script :=
  {| gets := [ok "A"; Raises req_ConnectionError None]; online := false |}.
Definition net_429 : script :=
  {| gets := [status 429; status 429; status 429]; online := true |}.
Definition net_nothing : script :=
  {| gets := [status 204; ok "no cards"; status 204]; online := true |}.
Definition drained (online : bool) : script := {| gets := []; online := online |}.

(** A card whose link is [href="httpx"]. *)
Definition card_httpx : node :=
  li [Tag (lit "h3") no_attrs [NavigableString (lit "Developer")];
      link "httpx" "Apply"].

(** A network that is down: the GET fails and no probe answers. *)
Definition net_offline : script :=
  {| gets := [Raises req_ConnectionError None]; online := false |}.

(** What a user types at the five prompts, with two rejected entries. *)
Definition sample_settings : settings :=
  {| default_location := lit "India"; max_jobs_limit := 500; export_json := false |}.

Definition sample_inputs : list pystr :=
  [lit ""; lit " Data Engineer "; lit ""; lit "many"; lit "20"; lit "3"; lit "Y"].

(** A record without a url. *)
Definition job_no_url : job :=
  <["url" := []]> (<["job_title" := lit "Developer"]> ∅).

(** The record of page A. *)
Definition job_A : job := default ∅ (head (parse_cards page_A)).

(** The records of page A, of page B and of page A again. *)
Definition jobs_ABA : list job :=
  parse_cards page_A ++ parse_cards page_B ++ parse_cards page_A.

End Scripted.

Import Scripted.

(* ===================================================================== *)
(** ** The model at work *)
(* ===================================================================== *)

Example split_ws_ex :
  split_ws (lit "  Senior   Python  Developer ") = [lit "Senior"; lit "Python"; lit "Developer"].
Proof. reflexivity. Qed.

Example strip_ex : strip (lit "  50 ") = lit "50".
Proof. reflexivity. Qed.

Example split_on_ex :
  split_on QUESTION (lit "/jobs/view/1?refId=a?b") = [lit "/jobs/view/1"; lit "refId=a"; lit "b"].
Proof. reflexivity. Qed.

Example lower_ex : lower (lit "Job-TITLE") = lit "job-title".
Proof. reflexivity. Qed.

Example int_ascii_ex : int_ascii (lit " -1_000 ") = Some (-1000).
Proof. reflexivity. Qed.

Example int_ascii_bad : int_ascii (lit "5__0") = None.
Proof. reflexivity. Qed.

(** Two pages of one record each reach a target of 2. *)
Example run_two_pages :
  (fun '(r, self, s) => (r, length (trace s))) <$>
    run cfg3 "python" 2 {| gets := [ok "A"; ok "B"]; online := true |}
  = Some (Ret (parse_cards page_A ++ parse_cards page_B), 3%nat)
  /\ titles_urls (parse_cards page_A ++ parse_cards page_B)
     = [(lit "Python Developer", lit "https://in.linkedin.com/jobs/view/1");
        (lit "Rust Developer", lit "https://www.linkedin.com/jobs/view/2")].
Proof. split; vm_compute; reflexivity. Qed.

(** The spec's scenario: a target of 10, a first page of 8 records and a
    second of 5, two of which repeat the first page. The loop stops at
    offset 50 with 13 records accumulated; 11 are left after
    deduplication and the first 10 are returned. *)
Example run_target_10 :
  (fun '(x, st, _) => (x, start st, length (all_jobs st),
                       length (_deduplicate_jobs (all_jobs st)))) <$>
    run_loop cfg3 "python" 10 {| gets := [ok "P8"; ok "P5"]; online := true |}
  = Some (Stopped BreakTarget, 50, 13%nat, 11%nat)
  /\ (fun '(r, _, _) => r) <$>
       run cfg3 "python" 10 {| gets := [ok "P8"; ok "P5"]; online := true |}
     = Some (Ret (take 10 (parse_cards page_8 ++ drop 2 (parse_cards page_5)))).
Proof. split; vm_compute; reflexivity. Qed.

(** Fallback: without the primary title marker, a plain [h3] gives the
    title; without any [h3], the full-link anchor does. *)
Example title_falls_back :
  extract_title (li [Tag (lit "h3") no_attrs [NavigableString (lit " Data  Engineer ")]])
  = lit "Data Engineer"
  /\ extract_title
       (li [Tag (lit "a") {| a_class := Some [lit "base-card__full-link"];
                             a_href := Some (lit "/jobs/view/9"); a_datetime := None |}
              [NavigableString (lit "QA Lead")]])
     = lit "QA Lead".
Proof. split; reflexivity. Qed.

(* ===================================================================== *)
(** ** Strings *)
(* ===================================================================== *)

Lemma lstrip_blank (s : pystr) : forallb isspace s = true -> lstrip s = [].
Proof.
  induction s as [|c s IH]; simpl; [done|].
  intros [Hc Hs]%andb_prop. rewrite Hc. auto.
Qed.

Lemma strip_blank (s : pystr) : forallb isspace s = true -> strip s = [].
Proof. intros H. unfold strip. by rewrite (lstrip_blank s H). Qed.

(** The first piece of [split] is what precedes the first separator. *)
Lemma hd_split_on_from (c : N) (s cur : pystr) :
  exists pre tail,
    hd [] (split_on_from c cur s) = rev cur ++ pre
    /\ s = pre ++ tail
    /\ has_char c pre = false
    /\ (tail = [] \/ exists t, tail = c :: t).
Proof.
  revert cur. induction s as [|x s IH]; intros cur; simpl.
  - exists [], []. rewrite app_nil_r. auto.
  - destruct (N.eqb_spec x c) as [->|Hne].
    + exists [], (c :: s). simpl. rewrite app_nil_r. eauto 6.
    + destruct (IH (x :: cur)) as (pre & tail & Hhd & -> & Hno & Htail).
      exists (x :: pre), tail. simpl in *.
      rewrite Hhd, <- app_assoc. simpl.
      assert ((c =? x)%N = false) as -> by (apply N.eqb_neq; congruence).
      auto.
Qed.

Lemma cut_query_spec (job_url : pystr) :
  has_char QUESTION (cut_query job_url) = false
  /\ exists tail, job_url = cut_query job_url ++ tail
       /\ (tail = [] \/ exists t, tail = QUESTION :: t).
Proof.
  unfold cut_query. destruct (has_char QUESTION job_url) eqn:E.
  - destruct (hd_split_on_from QUESTION job_url []) as (pre & tail & Hhd & Hs & Hno & Ht).
    unfold split_on. rewrite Hhd. simpl. eauto.
  - split; [done|]. exists []. rewrite app_nil_r. auto.
Qed.

Lemma startswith_cut (c : N) (p a tail : pystr) :
  startswith p (a ++ tail) = true ->
  has_char c p = false ->
  tail = [] \/ (exists t, tail = c :: t) ->
  startswith p a = true.
Proof.
  revert a. induction p as [|x p IH]; intros a Hp Hc Ht; [done|].
  simpl in Hc. apply orb_false_elim in Hc as [Hx Hc].
  destruct a as [|y a]; simpl in *.
  - destruct Ht as [->|[t ->]]; [done|].
    apply andb_prop in Hp as [Hp _]. apply N.eqb_eq in Hp. subst.
    by rewrite N.eqb_refl in Hx.
  - apply andb_prop in Hp as [-> Hp]. simpl. eauto.
Qed.

Lemma startswith_app (p s : pystr) : startswith p (p ++ s) = true.
Proof. induction p as [|x p IH]; simpl; [done|]. by rewrite N.eqb_refl. Qed.

(* ===================================================================== *)
(** ** Extraction *)
(* ===================================================================== *)

(** [_parse_job_card] with the dictionary reads resolved. *)
Lemma parse_job_card_eq (card : node) :
  _parse_job_card card =
  if bool_decide (extract_title card = NA) || (len (extract_title card) <? 2)
  then None
  else if negb (bool_decide (extract_url card = NA))
  then Some (<["posted_date" := extract_posted_date card]>
             (<["url" := extract_url card]>
             (<["location" := text_or_NA (location_elem card)]>
             (<["company" := text_or_NA (company_elem card)]>
             (<["job_title" := extract_title card]> ∅)))))
  else None.
Proof.
  unfold _parse_job_card.
  rewrite lookup_total_insert_eq.
  destruct (bool_decide (extract_title card = NA)) eqn:Et; simpl; [done|].
  destruct (len (extract_title card) <? 2); [done|].
  rewrite !(lookup_total_insert_ne _ _ "job_title") by done.
  rewrite lookup_total_insert_eq, Et. simpl.
  rewrite (lookup_total_insert_ne _ _ "url") by done.
  by rewrite lookup_total_insert_eq.
Qed.

Lemma parse_job_card_fields (card : node) (j : job) :
  _parse_job_card card = Some j ->
  j !! "job_title" = Some (extract_title card)
  /\ j !! "url" = Some (extract_url card)
  /\ get_url j = extract_url card.
Proof.
  rewrite parse_job_card_eq. intros H.
  repeat case_match; try discriminate. injection H as <-.
  unfold get_url.
  rewrite !lookup_insert_ne by done. rewrite lookup_insert_eq.
  rewrite lookup_insert_ne by done. rewrite lookup_insert_eq. done.
Qed.

(** When a card is accepted. *)
Lemma parse_job_card_some_iff (card : node) :
  is_Some (_parse_job_card card) <->
    extract_title card <> NA /\ extract_url card <> NA
    /\ 2 <= len (extract_title card).
Proof.
  rewrite parse_job_card_eq.
  destruct (bool_decide_reflect (extract_title card = NA)) as [Et|Et]; simpl.
  - split; [intros [? ?]; discriminate | intros (? & _); contradiction].
  - destruct (Z.ltb_spec (len (extract_title card)) 2) as [Hl|Hl].
    + split; [intros [? ?]; discriminate | lia].
    + destruct (bool_decide_reflect (extract_url card = NA)) as [Eu|Eu]; simpl.
      * split; [intros [? ?]; discriminate | intros (_ & ? & _); contradiction].
      * split; [done | eauto].
Qed.

(** C6. A candidate list item is accepted as a record exactly when its
    title and its url, as the fallback chains extract them, are both
    different from the sentinel "N/A" and the normalized title has at least
    2 characters; the accepted record carries these two fields. Every
    other candidate gives [None], and the page's records are the accepted
    candidates: nothing is raised for a discarded one. *)
Theorem candidate_accepted_iff (card : node) :
  (is_Some (_parse_job_card card) <->
     extract_title card <> NA /\ extract_url card <> NA
     /\ 2 <= len (extract_title card))
  /\ (forall j, _parse_job_card card = Some j ->
        j !! "job_title" = Some (extract_title card)
        /\ j !! "url" = Some (extract_url card))
  /\ (forall doc j, j ∈ parse_cards doc <->
        exists c, c ∈ find_all (lit "li") doc /\ _parse_job_card c = Some j).
Proof.
  split; [|split].
  - apply parse_job_card_some_iff.
  - intros j Hj. destruct (parse_job_card_fields card j Hj) as (? & ? & _). done.
  - intros doc j. unfold parse_cards. apply list_elem_of_omap.
Qed.

(** The url of an accepted record is the normalized href of the element
    the url chain selects. *)
Lemma accepted_url_href (card : node) (j : job) :
  _parse_job_card card = Some j ->
  exists e href,
    url_elem card = Some e /\ get_href e = Some href /\ href <> []
    /\ get_url j = normalize_href href.
Proof.
  intros Hj. destruct (parse_job_card_fields card j Hj) as (_ & _ & Hu).
  assert (extract_url card <> NA) as Hna.
  { apply parse_job_card_some_iff; eauto. }
  unfold extract_url in *.
  destruct (url_elem card) as [e|] eqn:He; [|done].
  destruct (get_href e) as [href|] eqn:Hh; [|done].
  destruct href as [|c href]; [done|].
  exists e, (c :: href). simpl in Hu. repeat split; done.
Qed.

Lemma normalize_href_cases (href : pystr) :
  normalize_href href =
    cut_query (if startswith (lit "/") href then SITE ++ href
               else if startswith (lit "http") href then href
               else SITE ++ lit "/" ++ href).
Proof. unfold normalize_href. by destruct (startswith (lit "http") href). Qed.

Lemma http_not_slash (href : pystr) :
  startswith (lit "http") href = true -> startswith (lit "/") href = false.
Proof.
  destruct href as [|c href]; [done|].
  change (lit "http") with (104%N :: lit "ttp"). change (lit "/") with [47%N].
  cbn [startswith]. intros [Hc _]%andb_prop.
  apply N.eqb_eq in Hc. by subst c.
Qed.

Lemma normalize_href_http (href : pystr) :
  startswith (lit "http") (normalize_href href) = true.
Proof.
  rewrite normalize_href_cases.
  set (job_url := if startswith (lit "/") href then _ else _).
  assert (startswith (lit "http") job_url = true) as Hs.
  { subst job_url. destruct (startswith (lit "/") href); [reflexivity|].
    destruct (startswith (lit "http") href) eqn:E; [done | reflexivity]. }
  destruct (cut_query_spec job_url) as (_ & tail & Heq & Ht).
  rewrite Heq in Hs.
  by apply (startswith_cut QUESTION _ _ tail).
Qed.

(** C7, as the code has it. The url of every accepted record is the href
    of the selected anchor, normalized: an href that begins with "/" is
    prefixed with the site origin, one that does not begin with "http" is
    prefixed with the origin and "/", and one that begins with "http" is
    kept as it is; everything from the first "?" on is then dropped. So
    the url holds no "?" and begins with "http". *)
Theorem accepted_url_normalized (card : node) (j : job) :
  _parse_job_card card = Some j ->
  exists e href,
    url_elem card = Some e /\ get_href e = Some href /\ href <> []
    /\ (startswith (lit "/") href = true ->
          get_url j = cut_query (SITE ++ href))
    /\ (startswith (lit "/") href = false -> startswith (lit "http") href = false ->
          get_url j = cut_query (SITE ++ lit "/" ++ href))
    /\ (startswith (lit "http") href = true ->
          get_url j = cut_query href)
    /\ has_char QUESTION (get_url j) = false
    /\ startswith (lit "http") (get_url j) = true.
Proof.
  intros Hj. destruct (accepted_url_href card j Hj) as (e & href & He & Hh & Hne & Hu).
  exists e, href. rewrite Hu. repeat split; try done.
  - intros H. by rewrite normalize_href_cases, H.
  - intros H1 H2. by rewrite normalize_href_cases, H1, H2.
  - intros H. by rewrite normalize_href_cases, (http_not_slash href H), H.
  - rewrite normalize_href_cases. apply cut_query_spec.
  - apply normalize_href_http.
Qed.

(* ===================================================================== *)
(** ** Deduplication *)
(* ===================================================================== *)

Section DedupFacts.

Implicit Types (seen : gset pystr) (jobs acc : list job) (j k : job).

(** The records already kept stay in front. *)
Lemma dedup_loop_app seen acc jobs :
  dedup_loop seen acc jobs = acc ++ dedup_loop seen [] jobs.
Proof.
  revert seen acc. induction jobs as [|j rest IH]; intros seen acc; simpl.
  - by rewrite app_nil_r.
  - case_match; [|apply IH].
    rewrite (IH _ (acc ++ [j])), (IH _ [j]). by rewrite <- app_assoc.
Qed.

Lemma dedup_loop_cons seen j rest :
  dedup_loop seen [] (j :: rest) =
    if truthy (get_url j) && bool_decide (get_url j ∉ seen)
    then j :: dedup_loop ({[get_url j]} ∪ seen) [] rest
    else dedup_loop seen [] rest.
Proof. simpl. case_match; [|done]. by rewrite dedup_loop_app. Qed.

Lemma truthy_ne (s : pystr) : truthy s = true <-> s <> [].
Proof. destruct s; simpl; split; done. Qed.

Lemma dedup_loop_sublist seen jobs :
  dedup_loop seen [] jobs `sublist_of` jobs.
Proof.
  revert seen. induction jobs as [|j rest IH]; intros seen; [done|].
  rewrite dedup_loop_cons. case_match.
  - by apply sublist_skip.
  - by apply sublist_cons.
Qed.

(** A kept record has a non-empty url that was not seen before. *)
Lemma dedup_loop_elem seen jobs k :
  k ∈ dedup_loop seen [] jobs -> (get_url k ∉ seen) /\ get_url k <> [].
Proof.
  revert seen. induction jobs as [|j rest IH]; intros seen.
  - simpl. by intros ?%elem_of_nil.
  - rewrite dedup_loop_cons. case_match eqn:E.
    + apply andb_prop in E as [Ht Hs%bool_decide_eq_true].
      intros [->|Hk]%elem_of_cons.
      * split; [done | by apply truthy_ne].
      * destruct (IH _ Hk) as [Hn ?]. split; [|done].
        intros ?. apply Hn, elem_of_union. by right.
    + apply IH.
Qed.

Lemma dedup_loop_NoDup seen jobs :
  NoDup (get_url <$> dedup_loop seen [] jobs).
Proof.
  revert seen. induction jobs as [|j rest IH]; intros seen.
  - simpl. constructor.
  - rewrite dedup_loop_cons. case_match; [|apply IH].
    rewrite fmap_cons. constructor; [|apply IH].
    intros (k & Hu & Hk)%list_elem_of_fmap.
    apply dedup_loop_elem in Hk as [Hk _]. set_solver.
Qed.

(** The first record with a given non-empty, unseen url is kept. *)
Lemma dedup_loop_first seen jobs i j :
  jobs !! i = Some j ->
  get_url j <> [] ->
  get_url j ∉ seen ->
  (forall i' j', (i' < i)%nat -> jobs !! i' = Some j' -> get_url j' <> get_url j) ->
  j ∈ dedup_loop seen [] jobs.
Proof.
  revert seen i. induction jobs as [|x rest IH]; intros seen i Hi Hne Hs Hfirst; [done|].
  rewrite dedup_loop_cons. destruct i as [|i]; simpl in Hi.
  - injection Hi as ->.
    apply truthy_ne in Hne. rewrite Hne, bool_decide_eq_true_2 by done.
    simpl. apply elem_of_cons. by left.
  - assert (get_url x <> get_url j) as Hx by (apply (Hfirst 0%nat); [lia | done]).
    assert (forall i' j', (i' < i)%nat -> rest !! i' = Some j' -> get_url j' <> get_url j)
      as Hrest by (intros i' j' ? ?; apply (Hfirst (S i')); [lia | done]).
    case_match.
    + apply elem_of_cons. right. apply (IH _ i); [done | done | | done].
      intros [?%elem_of_singleton|?]%elem_of_union; [congruence | done].
    + by apply (IH _ i).
Qed.

(** Every non-empty url of the input that was not seen before is the url
    of a kept record. *)
Lemma dedup_loop_covers seen jobs j :
  j ∈ jobs -> get_url j <> [] -> get_url j ∉ seen ->
  exists k, k ∈ dedup_loop seen [] jobs /\ get_url k = get_url j.
Proof.
  revert seen. induction jobs as [|x rest IH]; intros seen Hj Hne Hs.
  - by apply elem_of_nil in Hj.
  - rewrite dedup_loop_cons. apply elem_of_cons in Hj as [->|Hj].
    + apply truthy_ne in Hne. rewrite Hne, bool_decide_eq_true_2 by done.
      exists x. split; [|done]. apply elem_of_cons. by left.
    + case_match.
      * destruct (decide (get_url x = get_url j)) as [Heq|Hneq].
        -- exists x. split; [|done]. apply elem_of_cons. by left.
        -- destruct (IH ({[get_url x]} ∪ seen) Hj Hne) as (k & Hk & Hu).
           ++ intros [?%elem_of_singleton|?]%elem_of_union; [congruence | done].
           ++ exists k. split; [|done]. apply elem_of_cons. by right.
      * by apply IH.
Qed.

End DedupFacts.

(** [_deduplicate_jobs] on any list, records without a url included: it
    returns a subsequence of its input (first-seen order is kept) in
    which no two records share a url and no record has an empty or
    missing url; the first record of the input with a given non-empty url
    is in it. *)
Lemma deduplicate_any_list (jobs : list job) :
  _deduplicate_jobs jobs `sublist_of` jobs
  /\ NoDup (get_url <$> _deduplicate_jobs jobs)
  /\ (forall k, k ∈ _deduplicate_jobs jobs -> get_url k <> [])
  /\ (forall i j, jobs !! i = Some j -> get_url j <> [] ->
        (forall i' j', (i' < i)%nat -> jobs !! i' = Some j' -> get_url j' <> get_url j) ->
        j ∈ _deduplicate_jobs jobs).
Proof.
  unfold _deduplicate_jobs. repeat split.
  - apply dedup_loop_sublist.
  - apply dedup_loop_NoDup.
  - intros k Hk. by apply dedup_loop_elem in Hk as [_ ?].
  - intros i j Hi Hne Hfirst. apply (dedup_loop_first ∅ jobs i j); [done | done | set_solver | done].
Qed.

(** Every record the extractor accepts has a url, so the lists [scrape]
    passes to [_deduplicate_jobs] hold no record without one. *)
Lemma parse_cards_have_url (doc : list node) :
  Forall (fun j => get_url j <> []) (parse_cards doc).
Proof.
  apply Forall_forall. intros j (c & _ & Hc)%list_elem_of_omap.
  destruct (accepted_url_href c j Hc) as (e & href & _ & _ & _ & ->).
  pose proof (normalize_href_http href) as Hh.
  by destruct (normalize_href href).
Qed.

(** C8. For every list of records that each have a url, as every record
    the extractor accepts has, [_deduplicate_jobs] keeps exactly one
    record per url, the first encountered, and keeps the first-seen
    order: the result is a subsequence of the input, no two of its
    records share a url, every url of the input is the url of a kept
    record, and the first record of the input with a given url is the one
    kept. Later records with a url already seen are dropped; nothing is
    raised. *)
Theorem deduplicate_first_per_url (jobs : list job) :
  Forall (fun j => get_url j <> []) jobs ->
  _deduplicate_jobs jobs `sublist_of` jobs
  /\ NoDup (get_url <$> _deduplicate_jobs jobs)
  /\ (forall j, j ∈ jobs ->
        exists k, k ∈ _deduplicate_jobs jobs /\ get_url k = get_url j)
  /\ (forall i j, jobs !! i = Some j ->
        (forall i' j', (i' < i)%nat -> jobs !! i' = Some j' -> get_url j' <> get_url j) ->
        j ∈ _deduplicate_jobs jobs).
Proof.
  intros Hurl. rewrite Forall_forall in Hurl. unfold _deduplicate_jobs.
  split; [apply dedup_loop_sublist|].
  split; [apply dedup_loop_NoDup|].
  split.
  - intros j Hj. apply dedup_loop_covers; [done | by apply Hurl | ].
    apply not_elem_of_empty.
  - intros i j Hi Hfirst. apply (dedup_loop_first ∅ jobs i j); [done | | | done].
    + apply Hurl. by apply list_elem_of_lookup_2 in Hi.
    + apply not_elem_of_empty.
Qed.

(* ===================================================================== *)
(** ** Transport *)
(* ===================================================================== *)

Section TransportFacts.

Context {net : Type}.
Variable session_get : net -> params -> get_outcome * net.
Variable create_connection : net -> pystr -> bool * net.

Local Abbreviation io := (Transport.io net).
Local Abbreviation probe := (Transport.probe net create_connection).
Local Abbreviation handle := (Transport.handle net create_connection).
Local Abbreviation attempt_once := (Transport.attempt_once net session_get create_connection).
Local Abbreviation attempts := (Transport.attempts net session_get create_connection).
Local Abbreviation fetch_page := (Transport.fetch_page net session_get create_connection).

Implicit Types (s : io) (p : params).

(** *** The trace only grows *)

Lemma probe_trace hosts s : trace s `prefix_of` trace (probe hosts s).2.
Proof.
  revert s. induction hosts as [|h hosts IH]; intros s; simpl; [done|].
  unfold do_connect. destruct (create_connection (world s) h) as [ok w].
  destruct ok; simpl.
  - by apply prefix_app_r.
  - etrans; [|apply IH]. simpl. by apply prefix_app_r.
Qed.

Lemma retry_sleep_trace attempt max_retries s :
  trace s `prefix_of` trace (retry_sleep net attempt max_retries s).
Proof. unfold retry_sleep. case_match; [by apply prefix_app_r | done]. Qed.

Lemma handle_trace attempt max_retries c resp s :
  trace s `prefix_of` trace (handle attempt max_retries c resp s).2.
Proof.
  unfold handle, check_internet_connection.
  pose proof (probe_trace PROBE_HOSTS s) as Hp.
  pose proof (retry_sleep_trace attempt max_retries) as Hr.
  destruct (probe PROBE_HOSTS s) as [connected s1]. simpl in Hp.
  repeat case_match; simplify_eq; simpl; try done; try apply Hr.
  etrans; [exact Hp | apply Hr].
Qed.

(** Every attempt begins with the GET. *)
Lemma attempt_once_trace attempt max_retries p s :
  exists evs, trace (attempt_once attempt max_retries p s).2 = trace s ++ EvGet p :: evs.
Proof.
  unfold attempt_once, do_get.
  destruct (session_get (world s) p) as [out w].
  set (s1 := {| world := w; trace := trace s ++ [EvGet p] |}).
  assert (forall r : attempt_result * io, trace s1 `prefix_of` trace r.2 ->
            exists evs, trace r.2 = trace s ++ EvGet p :: evs) as Hext.
  { intros r [k Hk]. exists k. rewrite Hk. simpl. by rewrite <- app_assoc. }
  destruct out as [r|c resp].
  - repeat case_match; apply Hext; simpl; try done; apply handle_trace.
  - apply Hext, handle_trace.
Qed.

Lemma attempts_trace n attempt max_retries p s :
  trace s `prefix_of` trace (attempts n attempt max_retries p s).2.
Proof.
  revert attempt s. induction n as [|n IH]; intros attempt s; simpl; [done|].
  destruct (attempt_once_trace attempt max_retries p s) as [evs Hevs].
  destruct (attempt_once attempt max_retries p s) as [[r|] s1]; simpl in *.
  - rewrite Hevs. by apply prefix_app_r.
  - etrans; [|apply IH]. rewrite Hevs. by apply prefix_app_r.
Qed.

Lemma fetch_page_trace max_retries p s :
  trace s `prefix_of` trace (fetch_page max_retries p s).2.
Proof. apply attempts_trace. Qed.

(** With at least one attempt configured, [fetch_page] issues the GET. *)
Lemma fetch_page_first_get max_retries p s :
  1 <= max_retries ->
  exists evs, trace (fetch_page max_retries p s).2 = trace s ++ EvGet p :: evs.
Proof.
  intros Hm. unfold Transport.fetch_page.
  destruct (Z.to_nat max_retries) as [|n] eqn:En; [lia|]. simpl.
  destruct (attempt_once_trace 0 max_retries p s) as [evs Hevs].
  destruct (attempt_once 0 max_retries p s) as [[r|] s1]; simpl in *; [eauto|].
  destruct (attempts_trace n (0 + 1) max_retries p s1) as [k Hk].
  exists (evs ++ k). rewrite Hk, Hevs. by rewrite <- app_assoc.
Qed.

(** *** What [fetch_page] can raise *)

(** No exception has a response that is truthy and carries an error status. *)
Lemma truthy_response_status (r : response) :
  response_bool r = true -> status_code r <> 429 /\ status_code r <> 403.
Proof.
  unfold response_bool, raises_for_status. intros H.
  apply negb_true_iff, andb_false_iff in H. lia.
Qed.

(** The handlers raise nothing but the builtin [ConnectionError]: a
    response with status 429 or 403 is falsy, so the status the
    [HTTPError] handler reads is [None]; and an [SSLError] of requests is
    a [ConnectionError] of requests, whose handler comes first. *)
Lemma handle_raises attempt max_retries c resp s e s' :
  handle attempt max_retries c resp s = (Finished (Exn e), s') ->
  e = ConnectionError.
Proof.
  unfold handle. intros H.
  destruct (issubclass c req_Timeout) eqn:Ht; [done|].
  destruct (issubclass c req_ConnectionError) eqn:Hc.
  { destruct (check_internet_connection net create_connection s) as [connected s1].
    destruct connected; simpl in H; congruence. }
  destruct (issubclass c req_HTTPError) eqn:Hh.
  { destruct resp as [r|]; [|done].
    destruct (response_bool r) eqn:Hb; [|done].
    destruct (truthy_response_status r Hb).
    rewrite !bool_decide_eq_false_2 in H by congruence. done. }
  destruct (issubclass c req_SSLError) eqn:Hs; [|done].
  destruct c; done.
Qed.

Lemma attempt_once_raises attempt max_retries p s e s' :
  attempt_once attempt max_retries p s = (Finished (Exn e), s') ->
  e = ConnectionError.
Proof.
  unfold attempt_once. destruct (do_get net session_get p s) as [out s1].
  destruct out as [r|c resp].
  - repeat case_match; try done. apply handle_raises.
  - apply handle_raises.
Qed.

Lemma attempts_raises n attempt max_retries p s e s' :
  attempts n attempt max_retries p s = (Exn e, s') -> e = ConnectionError.
Proof.
  revert attempt s. induction n as [|n IH]; intros attempt s; simpl; [done|].
  destruct (attempt_once attempt max_retries p s) as [[r|] s1] eqn:E.
  - intros [= -> ->]. by apply attempt_once_raises in E.
  - apply IH.
Qed.

(** [fetch_page] never raises [RateLimitError], [AccessBlockedError] or
    [SSLError]. *)
Lemma fetch_page_raises max_retries p s e s' :
  fetch_page max_retries p s = (Exn e, s') -> e = ConnectionError.
Proof. apply attempts_raises. Qed.

End TransportFacts.

(* ===================================================================== *)
(** ** The pagination loop *)
(* ===================================================================== *)

Section ScrapeFacts.

Context {net : Type}.
Variable session_get : net -> params -> get_outcome * net.
Variable create_connection : net -> pystr -> bool * net.
Variable BeautifulSoup : pystr -> list node.
Variable self : scraper.
Variables job_title location : pystr.
Variable num_jobs : Z.
Variable experience_level : option pystr.

Local Abbreviation io := (Transport.io net).
Local Abbreviation fetch_job_page :=
  (Scraper.fetch_job_page net session_get create_connection self job_title location).
Local Abbreviation next_page := (Scraper.next_page net num_jobs).
Local Abbreviation scrape_iter :=
  (Scraper.scrape_iter net session_get create_connection BeautifulSoup self
     job_title location num_jobs experience_level).
Local Abbreviation scrape_loop :=
  (Scraper.scrape_loop net session_get create_connection BeautifulSoup self
     job_title location num_jobs experience_level).
Local Abbreviation yields_nothing :=
  (Scraper.yields_nothing net session_get create_connection BeautifulSoup self
     job_title location experience_level).
Local Abbreviation next_yield_nothing :=
  (Scraper.next_yield_nothing net session_get create_connection BeautifulSoup self
     job_title location num_jobs experience_level).
Local Abbreviation iterate :=
  (Scraper.iterate net session_get create_connection BeautifulSoup self
     job_title location num_jobs experience_level).
Local Abbreviation iterations_bound := (Scraper.iterations_bound num_jobs).
Local Abbreviation finish := (Scraper.finish num_jobs).
Local Abbreviation scrape :=
  (Scraper.scrape net session_get create_connection BeautifulSoup self
     job_title location num_jobs experience_level).

Implicit Types (s : io) (st : run_state).

(** *** One iteration *)

Lemma len_app {A} (l k : list A) : len (l ++ k) = len l + len k.
Proof. unfold len. rewrite length_app. lia. Qed.

Lemma geb_false (a b : Z) : a < b -> (a >=? b) = false.
Proof. intros. rewrite Z.geb_leb. apply Z.leb_gt. lia. Qed.

Lemma geb_false_inv (a b : Z) : (a >=? b) = false -> a < b.
Proof. rewrite Z.geb_leb. intros ?%Z.leb_gt. lia. Qed.

(** Unfold one iteration and split on what the fetch and the parse gave. *)
Ltac iter_cases st s :=
  unfold Scraper.yields_nothing, Scraper.scrape_iter, Scraper.next_page,
    max_consecutive_empty;
  let html := fresh "html" in
  let s0 := fresh "s0" in
  let Hf := fresh "Hf" in
  let Hp := fresh "Hp" in
  destruct (fetch_job_page (start st) experience_level s)
    as [[[html|]|?] s0] eqn:Hf;
  [destruct (parse_jobs BeautifulSoup html) as [|? ?] eqn:Hp | |];
  cbn [set_consecutive_empty consecutive_empty all_jobs start].

(** An iteration after which the loop goes on leaves fewer iterations. *)
Lemma scrape_iter_continue st s st1 s1 :
  scrape_iter st s = (IterContinue st1, s1) ->
  (iterations_bound st1 < iterations_bound st)%nat.
Proof.
  unfold Scraper.iterations_bound. iter_cases st s.
  - destruct (3 <=? consecutive_empty st + 1)%nat eqn:E; [done|].
    destruct (_ >=? _); [done|]. intros [= <- <-].
    cbn [consecutive_empty all_jobs]. apply Nat.leb_gt in E. lia.
  - destruct (_ >=? _) eqn:E; [done|]. intros [= <- <-].
    cbn [consecutive_empty all_jobs]. apply geb_false_inv in E.
    rewrite len_app in *. unfold len in *. cbn [length] in *. clear -E. lia.
  - destruct (3 <=? consecutive_empty st + 1)%nat eqn:E; [done|].
    intros [= <- <-]. cbn [consecutive_empty all_jobs set_consecutive_empty].
    apply Nat.leb_gt in E. lia.
  - done.
Qed.

(** A page with records is appended as it is, and resets the counter. *)
Lemma scrape_iter_records st s html s0 j page :
  fetch_job_page (start st) experience_level s = (Ret (Some html), s0) ->
  parse_jobs BeautifulSoup html = j :: page ->
  exists st1,
    all_jobs st1 = all_jobs st ++ j :: page
    /\ consecutive_empty st1 = 0%nat
    /\ start st1 = start st + JOBS_PER_PAGE
    /\ scrape_iter st s =
         if len (all_jobs st1) >=? num_jobs then (IterBreak BreakTarget st1, s0)
         else (IterContinue st1, log net EvSleepDelay s0).
Proof.
  intros Hf Hp. unfold Scraper.scrape_iter. rewrite Hf, Hp.
  unfold Scraper.next_page. cbn [all_jobs start consecutive_empty].
  by eexists {| all_jobs := _; start := _; consecutive_empty := _ |}.
Qed.

(** An iteration that yields nothing counts one more empty page, and
    stops the loop when that makes three. *)
Lemma scrape_iter_nothing st s :
  yields_nothing st s = true ->
  len (all_jobs st) < num_jobs ->
  exists r st1 s1,
    scrape_iter st s = (r, s1)
    /\ all_jobs st1 = all_jobs st
    /\ consecutive_empty st1 = S (consecutive_empty st)
    /\ (if (3 <=? S (consecutive_empty st))%nat
        then exists site, r = IterBreak site st1
                          /\ reason_of site = TooManyConsecutiveEmptyPages
        else r = IterContinue st1).
Proof.
  intros Hy Hlt. revert Hy. iter_cases st s; try done; intros _;
    rewrite Nat.add_1_r, ?(geb_false _ _ Hlt);
    destruct (3 <=? S (consecutive_empty st))%nat eqn:E.
  - exists (IterBreak BreakNoMoreJobs (set_consecutive_empty (S (consecutive_empty st)) st)),
      (set_consecutive_empty (S (consecutive_empty st)) st), s0.
    eauto 6.
  - eexists _, {| all_jobs := _; start := _; consecutive_empty := _ |}, _.
    eauto.
  - exists (IterBreak BreakFailedRequests (set_consecutive_empty (S (consecutive_empty st)) st)),
      (set_consecutive_empty (S (consecutive_empty st)) st), s0.
    eauto 6.
  - eexists _, (set_consecutive_empty (S (consecutive_empty st)) st), _.
    eauto.
Qed.

Lemma scrape_iter_raise st s e st1 s1 :
  scrape_iter st s = (IterRaise e st1, s1) ->
  st1 = st /\ fetch_job_page (start st) experience_level s = (Exn e, s1).
Proof.
  iter_cases st s; repeat case_match; try done.
  by intros [= -> -> ->].
Qed.

(** The trace only grows, and with an attempt configured an iteration
    begins with the GET for the current offset. *)
Lemma fetch_job_page_trace offset s :
  trace s `prefix_of` trace (fetch_job_page offset experience_level s).2.
Proof. apply fetch_page_trace. Qed.

Lemma fetch_job_page_first_get offset s :
  1 <= max_retries (config self) ->
  exists evs,
    trace (fetch_job_page offset experience_level s).2 =
      trace s ++ EvGet (query job_title location offset experience_level) :: evs.
Proof. apply fetch_page_first_get. Qed.

Lemma scrape_iter_trace st s :
  trace s `prefix_of` trace (scrape_iter st s).2.
Proof.
  pose proof (fetch_job_page_trace (start st) s) as Hf.
  revert Hf. iter_cases st s; cbn [snd]; intros Hpre;
    repeat case_match; cbn [snd]; try done;
    (etrans; [exact Hpre | by apply prefix_app_r]).
Qed.

Lemma scrape_iter_first_get st s :
  1 <= max_retries (config self) ->
  exists evs,
    trace (scrape_iter st s).2 =
      trace s ++ EvGet (query job_title location (start st) experience_level) :: evs.
Proof.
  intros Hm.
  destruct (fetch_job_page_first_get (start st) s Hm) as [evs Hevs].
  revert Hevs. iter_cases st s; cbn [snd]; intros Hevs;
    repeat case_match; cbn [snd]; eauto;
    eexists; unfold log; cbn [trace]; rewrite Hevs, <- app_assoc; reflexivity.
Qed.

(** *** The loop *)

(** [iterations_bound] iterations always suffice: the loop terminates. *)
Lemma scrape_loop_enough fuel st s :
  (iterations_bound st <= fuel)%nat -> is_Some (scrape_loop fuel st s).
Proof.
  revert st s. induction fuel as [|fuel IH]; intros st s Hb.
  - unfold Scraper.iterations_bound in Hb. lia.
  - simpl. destruct (len (all_jobs st) <? num_jobs); [|eauto].
    destruct (scrape_iter st s) as [[e st1|site st1|st1] s1] eqn:E; eauto.
    apply IH. apply scrape_iter_continue in E. lia.
Qed.

(** More fuel does not change the result. *)
Lemma scrape_loop_mono fuel fuel' st s r :
  scrape_loop fuel st s = Some r -> (fuel <= fuel')%nat ->
  scrape_loop fuel' st s = Some r.
Proof.
  revert fuel' st s. induction fuel as [|fuel IH]; intros fuel' st s H Hle; [done|].
  destruct fuel' as [|fuel']; [lia|]. simpl in *.
  destruct (len (all_jobs st) <? num_jobs); [|done].
  destruct (scrape_iter st s) as [[e st1|site st1|st1] s1]; try done.
  apply IH; [done | lia].
Qed.

Lemma scrape_loop_trace fuel st s x st' s' :
  scrape_loop fuel st s = Some (x, st', s') -> trace s `prefix_of` trace s'.
Proof.
  revert st s. induction fuel as [|fuel IH]; intros st s; [done|]. simpl.
  destruct (len (all_jobs st) <? num_jobs); [|by intros [= _ _ ->]].
  pose proof (scrape_iter_trace st s) as Ht.
  destruct (scrape_iter st s) as [[e st1|site st1|st1] s1]; cbn [snd] in Ht.
  - by intros [= _ _ <-].
  - by intros [= _ _ <-].
  - intros H. etrans; [exact Ht | by eapply IH].
Qed.

(** Whatever the loop raises is the [ConnectionError] of [fetch_page]. *)
Lemma scrape_loop_raises fuel st s e st' s' :
  scrape_loop fuel st s = Some (Raised e, st', s') -> e = ConnectionError.
Proof.
  revert st s. induction fuel as [|fuel IH]; intros st s; [done|]. simpl.
  destruct (len (all_jobs st) <? num_jobs); [|done].
  destruct (scrape_iter st s) as [[e1 st1|site st1|st1] s1] eqn:E; [|done|apply IH].
  intros [= -> _ _]. apply scrape_iter_raise in E as [_ E].
  by apply fetch_page_raises in E.
Qed.

(** [scrape] always returns or raises. *)
Lemma scrape_total s : is_Some (scrape s).
Proof.
  unfold Scraper.scrape.
  destruct (scrape_loop_enough (iterations_bound initial_state) initial_state s)
    as [[[x st] s1] Hl]; [done|].
  rewrite Hl. destruct x; eauto.
Qed.

(** What [scrape] makes of the way the loop ended. *)
Lemma scrape_eq s x st s1 :
  scrape_loop (iterations_bound initial_state) initial_state s = Some (x, st, s1) ->
  scrape s =
    match x with
    | Raised e => Some (Exn e, self, s1)
    | Stopped _ =>
        Some (Ret (finish (all_jobs st)),
              {| config := config self; jobs := finish (all_jobs st) |}, s1)
    end.
Proof. intros H. unfold Scraper.scrape. rewrite H. by destruct x. Qed.

(** After the trim there are at most [num_jobs] records: the first ones. *)
Lemma finish_take (acc : list job) :
  0 <= num_jobs ->
  finish acc = take (Z.to_nat num_jobs) (_deduplicate_jobs acc)
  /\ len (finish acc) <= num_jobs.
Proof.
  intros Hn. unfold Scraper.finish, slice_to, len.
  destruct (Z.gtb_spec (Z.of_nat (length (_deduplicate_jobs acc))) num_jobs) as [Hg|Hg].
  - assert ((0 <=? num_jobs) = true) as -> by lia.
    split; [done|]. rewrite length_take. lia.
  - split; [|lia]. rewrite take_ge; [done | lia].
Qed.

Lemma finish_sublist (acc : list job) :
  finish acc `sublist_of` _deduplicate_jobs acc.
Proof.
  unfold Scraper.finish, slice_to. repeat case_match; try done; apply sublist_take.
Qed.

(** *** Stopping on emptiness *)

Lemma nothing_yielded_stops n fuel st s :
  len (all_jobs st) < num_jobs ->
  next_yield_nothing n st s = true ->
  (3 <= consecutive_empty st + n)%nat -> (1 <= n)%nat -> (n <= fuel)%nat ->
  exists site st' s',
    scrape_loop fuel st s = Some (Stopped site, st', s')
    /\ reason_of site = TooManyConsecutiveEmptyPages
    /\ all_jobs st' = all_jobs st.
Proof.
  revert fuel st s. induction n as [|n IH]; intros fuel st s Hlt Hn Hc H1 Hfuel; [lia|].
  destruct fuel as [|fuel]; [lia|].
  cbn [Scraper.next_yield_nothing] in Hn. apply andb_prop in Hn as [Hy Hrest].
  cbn [Scraper.scrape_loop].
  assert ((len (all_jobs st) <? num_jobs) = true) as -> by lia.
  destruct (scrape_iter_nothing st s Hy Hlt) as (r & st1 & s1 & Hiter & Hall & Hce & Hr).
  rewrite Hiter in Hrest |- *.
  destruct (3 <=? S (consecutive_empty st))%nat eqn:E.
  - destruct Hr as (site & -> & Hsite). eauto 6.
  - subst r. apply Nat.leb_gt in E.
    destruct (IH fuel st1 s1) as (site & st' & s' & Hl & Hsite & Hjobs);
      [by rewrite Hall | done | lia | lia | lia |].
    exists site, st', s'. by rewrite Hjobs, Hall.
Qed.

(** The loop after [k] iterations is the loop from the state reached. *)
Lemma scrape_loop_iterate k fuel st s st' s' :
  iterate k st s = Some (st', s') ->
  scrape_loop (k + fuel) st s = scrape_loop fuel st' s'.
Proof.
  revert st s. induction k as [|k IH]; intros st s; cbn [Scraper.iterate].
  - by intros [= -> ->].
  - cbn [Nat.add Scraper.scrape_loop].
    destruct (len (all_jobs st) <? num_jobs); [|done].
    destruct (scrape_iter st s) as [[e st1|site st1|st1] s1]; try done.
    apply IH.
Qed.

(** A result of the loop from a state the run reaches is the result of
    the run's loop. *)
Lemma scrape_loop_from_reached k fuel s0 st s r :
  iterate k initial_state s0 = Some (st, s) ->
  scrape_loop fuel st s = Some r ->
  scrape_loop (iterations_bound initial_state) initial_state s0 = Some r.
Proof.
  intros Hk Hr.
  assert (scrape_loop (k + fuel) initial_state s0 = Some r) as Hkf
    by (by rewrite (scrape_loop_iterate k fuel _ _ _ _ Hk)).
  destruct (scrape_loop_enough (iterations_bound initial_state) initial_state s0)
    as [r' Hr']; [done|].
  destruct (Nat.le_ge_cases (k + fuel) (iterations_bound initial_state)) as [Hle|Hle].
  - by apply (scrape_loop_mono (k + fuel)).
  - pose proof (scrape_loop_mono _ (k + fuel) _ _ _ Hr' Hle) as H2. congruence.
Qed.

(** C9. When a run, after any number of iterations, goes through three
    consecutive iterations that each yield no accepted record, because
    the fetch gave no page or because the page parsed to nothing, the loop
    stops with reason TooManyConsecutiveEmptyPages, however far below the
    target the accumulation is, and [scrape] returns what had been
    accumulated (deduplicated and trimmed as always). And a page with at
    least one accepted record sets the counter of consecutive empty pages
    back to zero. *)
Theorem three_empty_iterations_stop k s0 st s :
  iterate k initial_state s0 = Some (st, s) ->
  len (all_jobs st) < num_jobs ->
  next_yield_nothing 3 st s = true ->
  (exists site st' s',
     scrape_loop (iterations_bound initial_state) initial_state s0
       = Some (Stopped site, st', s')
     /\ reason_of site = TooManyConsecutiveEmptyPages
     /\ all_jobs st' = all_jobs st
     /\ scrape s0 = Some (Ret (finish (all_jobs st)),
                          {| config := config self; jobs := finish (all_jobs st) |}, s'))
  /\ (forall st0 s0 html s1 j page,
        fetch_job_page (start st0) experience_level s0 = (Ret (Some html), s1) ->
        parse_jobs BeautifulSoup html = j :: page ->
        exists st1,
          consecutive_empty st1 = 0%nat
          /\ (scrape_iter st0 s0).1 ∈ [IterContinue st1; IterBreak BreakTarget st1]).
Proof.
  intros Hk Hlt Hn. split.
  - destruct (nothing_yielded_stops 3 3 st s) as (site & st' & s' & Hl & Hsite & Hjobs);
      [done | done | lia | lia | done |].
    apply (scrape_loop_from_reached k 3 s0 st s _ Hk) in Hl.
    exists site, st', s'. repeat split; try done.
    by rewrite (scrape_eq s0 _ st' s' Hl), Hjobs.
  - intros st0 s1 html s2 j page Hf Hp.
    destruct (scrape_iter_records st0 s1 html s2 j page Hf Hp)
      as (st1 & _ & Hc & _ & Hiter).
    exists st1. split; [done|]. rewrite Hiter.
    destruct (len (all_jobs st1) >=? num_jobs); cbn [fst]; set_solver.
Qed.

(** *** What [scrape] returns *)

(** C4. For a target of [num_jobs] records, a run that completes returns
    at most [num_jobs] records: the first [num_jobs] of the deduplicated
    accumulation, in the order they were met, which is also what is
    stored in [self.jobs]. Every run completes or raises. *)
Theorem scrape_returns_at_most_target s :
  0 <= num_jobs ->
  exists r self' s',
    scrape s = Some (r, self', s')
    /\ forall js, r = Ret js ->
         len js <= num_jobs
         /\ jobs self' = js
         /\ exists site st,
              scrape_loop (iterations_bound initial_state) initial_state s
                = Some (Stopped site, st, s')
              /\ js = take (Z.to_nat num_jobs) (_deduplicate_jobs (all_jobs st)).
Proof.
  intros Hn.
  destruct (scrape_loop_enough (iterations_bound initial_state) initial_state s)
    as [[[x st] s1] Hl]; [done|].
  rewrite (scrape_eq s x st s1 Hl). destruct x as [site|e].
  - eexists _, _, _. split; [reflexivity|]. intros js [= <-].
    destruct (finish_take (all_jobs st) Hn) as [Ht Hlen].
    split; [done|]. split; [done|]. exists site, st. by rewrite <- Ht.
  - eexists _, _, _. split; [reflexivity|]. intros js [=].
Qed.

(** C2, as the code has it. The list [scrape] returns holds no two
    records with the same url: it is the loop's accumulation,
    deduplicated once after the loop and trimmed. Inside the loop a page's
    records are appended as they are, without looking at the
    accumulation, and the stopping test counts them all. *)
Theorem scrape_result_unique_urls s js self' s' :
  scrape s = Some (Ret js, self', s') ->
  NoDup (get_url <$> js)
  /\ (exists site st,
        scrape_loop (iterations_bound initial_state) initial_state s
          = Some (Stopped site, st, s')
        /\ js = finish (all_jobs st))
  /\ (forall st0 s0 html s1 j page,
        fetch_job_page (start st0) experience_level s0 = (Ret (Some html), s1) ->
        parse_jobs BeautifulSoup html = j :: page ->
        exists st1,
          all_jobs st1 = all_jobs st0 ++ j :: page
          /\ (scrape_iter st0 s0).1 =
               if len (all_jobs st0 ++ j :: page) >=? num_jobs
               then IterBreak BreakTarget st1 else IterContinue st1).
Proof.
  intros Hs.
  destruct (scrape_loop_enough (iterations_bound initial_state) initial_state s)
    as [[[x st] s1] Hl]; [done|].
  rewrite (scrape_eq s x st s1 Hl) in Hs. destruct x as [site|e]; [|done].
  injection Hs as <- <- <-. split; [|split].
  - eapply sublist_NoDup; [apply (dedup_loop_NoDup ∅ (all_jobs st))|].
    apply fmap_sublist, finish_sublist.
  - eauto.
  - intros st0 s0 html s2 j page Hf Hp.
    destruct (scrape_iter_records st0 s0 html s2 j page Hf Hp)
      as (st1 & Hall & _ & _ & Hiter).
    exists st1. split; [done|]. rewrite Hiter, Hall.
    by destruct (len (all_jobs st0 ++ j :: page) >=? num_jobs).
Qed.

(** C1, as the code has it. When a run has reached a state below its
    target and the transport raises there, the exception leaves the loop
    and [scrape]: the caller gets the failure and no records. What had
    been accumulated before the failure is not handed over, and the
    scraper object, [self.jobs] included, is as it was before the call. *)
Theorem scrape_propagates_failure k s0 st s e s1 :
  iterate k initial_state s0 = Some (st, s) ->
  len (all_jobs st) < num_jobs ->
  fetch_job_page (start st) experience_level s = (Exn e, s1) ->
  scrape s0 = Some (Exn e, self, s1)
  /\ scrape_loop (iterations_bound initial_state) initial_state s0
       = Some (Raised e, st, s1).
Proof.
  intros Hk Hlt Hf.
  assert (scrape_loop 1 st s = Some (Raised e, st, s1)) as Hl.
  { cbn [Scraper.scrape_loop].
    assert ((len (all_jobs st) <? num_jobs) = true) as -> by lia.
    unfold Scraper.scrape_iter. by rewrite Hf. }
  apply (scrape_loop_from_reached k 1 s0 st s _ Hk) in Hl.
  split; [|done]. by rewrite (scrape_eq s0 _ st s1 Hl).
Qed.

Lemma prompt_job_title_nonempty inputs job_title' rest :
  prompt_job_title inputs = Some (job_title', rest) -> job_title' <> [].
Proof.
  induction inputs as [|line inputs IH]; simpl; [done|].
  destruct (strip line) as [|c t] eqn:E; simpl; [done|]. by intros [= <- _].
Qed.

(** C3, as the code has it. [scrape] does not validate its query: for any
    keywords, the empty string included, a call with a target of at least
    1 and at least one attempt configured first issues the GET for offset
    0 with these keywords, and it never raises [InputValidationError].
    Empty keywords are kept out before the call: the title prompt only
    returns a non-empty title. *)
Theorem scrape_does_not_validate s :
  1 <= num_jobs ->
  1 <= max_retries (config self) ->
  (exists r self' s' evs,
     scrape s = Some (r, self', s')
     /\ r <> Exn InputValidationError
     /\ trace s' = trace s ++ EvGet (query job_title location 0 experience_level) :: evs)
  /\ (forall inputs title rest,
        prompt_job_title inputs = Some (title, rest) -> title <> []).
Proof.
  intros Hn Hm. split; [|apply prompt_job_title_nonempty].
  destruct (scrape_loop_enough (iterations_bound initial_state) initial_state s)
    as [[[x st] s1] Hl]; [done|].
  assert (exists evs, trace s1 =
            trace s ++ EvGet (query job_title location 0 experience_level) :: evs)
    as [evs Hevs].
  { revert Hl. unfold Scraper.iterations_bound. rewrite Nat.add_1_r.
    cbn [Scraper.scrape_loop].
    assert ((len (all_jobs initial_state) <? num_jobs) = true) as ->
      by (apply Z.ltb_lt; change (0 < num_jobs); clear -Hn; lia).
    destruct (scrape_iter_first_get initial_state s Hm) as [evs Hevs].
    destruct (scrape_iter initial_state s) as [[e st1|site st1|st1] s2];
      cbn [snd] in Hevs.
    - intros [= _ _ <-]. eauto.
    - intros [= _ _ <-]. eauto.
    - intros [k Hk]%scrape_loop_trace. exists (evs ++ k).
      rewrite Hk, Hevs, <- app_assoc. done. }
  rewrite (scrape_eq s x st s1 Hl). destruct x as [site|e].
  - eexists _, _, _, evs. done.
  - apply scrape_loop_raises in Hl as ->. eexists _, _, _, evs. done.
Qed.

End ScrapeFacts.

(* ===================================================================== *)
(** ** Concrete runs *)
(* ===================================================================== *)

(** C1: the claim fails. The first page gives one record; the second
    fetch fails with the network down, so [fetch_page] raises
    [ConnectionError]. The loop had accumulated the record, but [scrape]
    only raises: nothing is returned and [self.jobs] is still empty. *)
Lemma scrape_drops_accumulated_records :
  exists st s1,
    run_loop cfg3 "python" 2 net_A_then_down = Some (Raised ConnectionError, st, s1)
    /\ all_jobs st = parse_cards page_A
    /\ length (all_jobs st) = 1%nat
    /\ run cfg3 "python" 2 net_A_then_down = Some (Exn ConnectionError, cfg3, s1)
    /\ jobs cfg3 = [].
Proof. eexists _, _. repeat split; vm_compute; reflexivity. Qed.

Lemma scrape_propagates_failure_witness :
  exists s1,
    run cfg3 "python" 2 net_A_then_down = Some (Exn ConnectionError, cfg3, s1)
    /\ run_loop cfg3 "python" 2 net_A_then_down
       = Some (Raised ConnectionError,
               {| all_jobs := parse_cards page_A; start := 25; consecutive_empty := 0 |},
               s1).
Proof.
  eexists.
  eapply (scrape_propagates_failure session_get create_connection (parser_of pages)
            cfg3 (lit "python") (lit "India") 2 None 1 (fresh net_A_then_down)).
  - vm_compute. reflexivity.
  - vm_compute. reflexivity.
  - vm_compute. reflexivity.
Defined.

(** C2: the claim fails. The same page is served twice for a target of
    2: after the second page the accumulation holds two records with one
    url, the loop stops because it counts 2, and one record is returned. *)
Lemma accumulation_holds_duplicates :
  exists st s1,
    run_loop cfg3 "python" 2 net_AA = Some (Stopped BreakTarget, st, s1)
    /\ all_jobs st = parse_cards page_A ++ parse_cards page_A
    /\ ~ NoDup (get_url <$> all_jobs st)
    /\ run cfg3 "python" 2 net_AA
       = Some (Ret (parse_cards page_A),
               {| config := config cfg3; jobs := parse_cards page_A |}, s1)
    /\ length (parse_cards page_A) = 1%nat.
Proof.
  eexists _, _. split; [vm_compute; reflexivity|].
  split; [vm_compute; reflexivity|].
  split; [|split; vm_compute; reflexivity].
  cbn [all_jobs]. intros Hnd.
  change (parse_cards page_A) with [default ∅ (head (parse_cards page_A))] in Hnd.
  apply NoDup_cons in Hnd as [Hin _]. apply Hin. apply elem_of_cons. by left.
Qed.

Lemma scrape_result_unique_urls_witness :
  NoDup (get_url <$> parse_cards page_A ++ parse_cards page_B).
Proof.
  apply (scrape_result_unique_urls session_get create_connection (parser_of pages)
           cfg3 (lit "python") (lit "India") 2 None (fresh net_AB)
           (parse_cards page_A ++ parse_cards page_B)
           {| config := config cfg3; jobs := parse_cards page_A ++ parse_cards page_B |}
           {| world := drained true;
              trace := [EvGet (q "python" 0); EvSleepDelay; EvGet (q "python" 25)] |}).
  vm_compute. reflexivity.
Defined.

(** C3: the claim fails. Called with empty keywords, [scrape] sends the
    GET with [keywords=""] and returns the page's record. *)
Lemma scrape_fetches_with_empty_keywords :
  run cfg3 "" 1 net_AB
  = Some (Ret (parse_cards page_A),
          {| config := config cfg3; jobs := parse_cards page_A |},
          {| world := {| gets := [ok "B"]; online := true |};
             trace := [EvGet {| p_keywords := []; p_location := lit "India";
                                p_start := 0; p_f_E := None |}] |}).
Proof. vm_compute. reflexivity. Qed.

Lemma scrape_does_not_validate_witness :
  (exists r self' s' evs,
     run cfg3 "" 1 net_AB = Some (r, self', s')
     /\ r <> Exn InputValidationError
     /\ trace s' = [] ++ EvGet (q "" 0) :: evs)
  /\ (forall inputs title rest,
        prompt_job_title inputs = Some (title, rest) -> title <> []).
Proof.
  apply (scrape_does_not_validate session_get create_connection (parser_of pages)
           cfg3 (lit "") (lit "India") 1 None (fresh net_AB)); simpl; lia.
Defined.

Example prompt_job_title_ex :
  prompt_job_title [lit ""; lit "   "; lit " Data Engineer "; lit "Pune"]
  = Some (lit "Data Engineer", [lit "Pune"]).
Proof. reflexivity. Qed.

Lemma scrape_returns_at_most_target_witness :
  exists r self' s',
    run cfg3 "python" 1 net_AB = Some (r, self', s')
    /\ forall js, r = Ret js ->
         len js <= 1
         /\ jobs self' = js
         /\ exists site st,
              run_loop cfg3 "python" 1 net_AB = Some (Stopped site, st, s')
              /\ js = take (Z.to_nat 1) (_deduplicate_jobs (all_jobs st)).
Proof.
  apply (scrape_returns_at_most_target session_get create_connection (parser_of pages)
           cfg3 (lit "python") (lit "India") 1 None (fresh net_AB)). lia.
Defined.

(** C5: the code does not do what the claim says. Three responses with
    status 429 and three attempts configured: [fetch_page] sends all three
    GETs, sleeping in between, and returns [None]; no [RateLimitError]. *)
Theorem fetch_page_429_is_retried :
  fetch_page script session_get create_connection 3 (q "python" 0) (fresh net_429)
  = (Ret None,
     {| world := drained true;
        trace := [EvGet (q "python" 0); EvSleepRetry;
                  EvGet (q "python" 0); EvSleepRetry;
                  EvGet (q "python" 0)] |}).
Proof. vm_compute. reflexivity. Qed.

(** The run goes on after the 429s (here into read timeouts, nine GETs
    in all) and ends normally with no records. *)
Example scrape_after_429 :
  (fun '(r, _, s) => (r, length (List.filter is_get (trace s)))) <$>
    run cfg3 "python" 2 net_429
  = Some (Ret [], 9%nat).
Proof. vm_compute. reflexivity. Qed.

(** C7: the claim fails. An anchor with [href="httpx"] begins with
    "http", so the href is kept: the record is accepted with the url
    "httpx", which is not an absolute URL. *)
Lemma accepted_url_not_absolute :
  ~ (forall card j, _parse_job_card card = Some j -> is_absolute_url (get_url j) = true).
Proof.
  intros H.
  specialize (H card_httpx (default ∅ (_parse_job_card card_httpx)) eq_refl).
  vm_compute in H. discriminate.
Qed.

Example card_httpx_url :
  get_url <$> _parse_job_card card_httpx = Some (lit "httpx").
Proof. reflexivity. Qed.

Lemma accepted_url_normalized_witness :
  exists e href,
    url_elem (card "Rust Developer" "Initech" "/jobs/view/2?trk=y") = Some e
    /\ get_href e = Some href /\ href <> []
    /\ (startswith (lit "/") href = true ->
          lit "https://www.linkedin.com/jobs/view/2" = cut_query (SITE ++ href))
    /\ (startswith (lit "/") href = false -> startswith (lit "http") href = false ->
          lit "https://www.linkedin.com/jobs/view/2" = cut_query (SITE ++ lit "/" ++ href))
    /\ (startswith (lit "http") href = true ->
          lit "https://www.linkedin.com/jobs/view/2" = cut_query href)
    /\ has_char QUESTION (lit "https://www.linkedin.com/jobs/view/2") = false
    /\ startswith (lit "http") (lit "https://www.linkedin.com/jobs/view/2") = true.
Proof.
  apply (accepted_url_normalized
           (card "Rust Developer" "Initech" "/jobs/view/2?trk=y")
           (default ∅ (_parse_job_card (card "Rust Developer" "Initech" "/jobs/view/2?trk=y")))).
  vm_compute. reflexivity.
Defined.

Lemma Forall_url_check (jobs : list job) :
  forallb (fun j => truthy (get_url j)) jobs = true ->
  Forall (fun j => get_url j <> []) jobs.
Proof.
  induction jobs as [|j jobs IH]; simpl; [constructor|].
  intros [Hj Hr]%andb_prop. constructor; [by destruct (get_url j) | by apply IH].
Qed.

Lemma deduplicate_first_per_url_witness :
  _deduplicate_jobs jobs_ABA `sublist_of` jobs_ABA
  /\ NoDup (get_url <$> _deduplicate_jobs jobs_ABA)
  /\ (forall j, j ∈ jobs_ABA ->
        exists k, k ∈ _deduplicate_jobs jobs_ABA /\ get_url k = get_url j)
  /\ (forall i j, jobs_ABA !! i = Some j ->
        (forall i' j', (i' < i)%nat -> jobs_ABA !! i' = Some j' ->
                       get_url j' <> get_url j) ->
        j ∈ _deduplicate_jobs jobs_ABA).
Proof.
  apply (deduplicate_first_per_url jobs_ABA), Forall_url_check.
  vm_compute. reflexivity.
Defined.

Example deduplicate_ABA :
  get_url <$> jobs_ABA
  = [lit "https://in.linkedin.com/jobs/view/1";
     lit "https://www.linkedin.com/jobs/view/2";
     lit "https://in.linkedin.com/jobs/view/1"]
  /\ get_url <$> _deduplicate_jobs jobs_ABA
     = [lit "https://in.linkedin.com/jobs/view/1";
        lit "https://www.linkedin.com/jobs/view/2"].
Proof. split; vm_compute; reflexivity. Qed.

(** Outside the records of the extractor: a record whose url is the
    empty string is not kept at all, so its url has no record in the
    result. *)
Lemma deduplicate_drops_empty_url :
  ~ (forall jobs j, j ∈ jobs ->
       exists k, k ∈ _deduplicate_jobs jobs /\ get_url k = get_url j).
Proof.
  intros H. destruct (H [job_no_url] job_no_url) as (k & Hk & _).
  - apply elem_of_cons. by left.
  - vm_compute in Hk. by apply elem_of_nil in Hk.
Qed.

Example deduplicate_ex :
  titles_urls (_deduplicate_jobs
    (parse_cards page_A ++ parse_cards page_B ++ [job_no_url] ++ parse_cards page_A))
  = [(lit "Python Developer", lit "https://in.linkedin.com/jobs/view/1");
     (lit "Rust Developer", lit "https://www.linkedin.com/jobs/view/2")].
Proof. vm_compute. reflexivity. Qed.

Lemma three_empty_iterations_stop_witness :
  exists site st' s',
    run_loop cfg3 "python" 5 net_nothing = Some (Stopped site, st', s')
    /\ reason_of site = TooManyConsecutiveEmptyPages
    /\ all_jobs st' = []
    /\ run cfg3 "python" 5 net_nothing
       = Some (Ret (finish 5 []), {| config := config cfg3; jobs := finish 5 [] |}, s').
Proof.
  apply (three_empty_iterations_stop session_get create_connection (parser_of pages)
           cfg3 (lit "python") (lit "India") 5 None
           0 (fresh net_nothing) initial_state (fresh net_nothing)).
  - reflexivity.
  - vm_compute. reflexivity.
  - vm_compute. reflexivity.
Defined.

(** Three empty iterations after a productive one: the record of page A
    is returned. *)
Example stop_after_one_page :
  (fun '(r, _, s) => (r, length (List.filter is_get (trace s)))) <$>
    run cfg3 "python" 5 {| gets := ok "A" :: gets net_nothing; online := true |}
  = Some (Ret (parse_cards page_A), 4%nat).
Proof. vm_compute. reflexivity. Qed.

(* ===================================================================== *)
(** ** User input *)
(* ===================================================================== *)

(** C10. Whatever the limit, an empty or whitespace-only input gives the
    default 50, and the limit is not looked at: with a limit below 50 the
    count returned exceeds it, and no [InputValidationError] is raised. *)
Theorem validate_job_count_blank (int : pystr -> option Z) (value : pystr) (max_limit : Z) :
  forallb isspace value = true ->
  validate_job_count int value max_limit = Ret 50
  /\ (max_limit < 50 ->
        exists n, validate_job_count int value max_limit = Ret n /\ max_limit < n).
Proof.
  intros Hv. unfold validate_job_count. rewrite (strip_blank value Hv). simpl.
  split; [done|]. intros Hm. exists 50. by split.
Qed.

Lemma validate_job_count_blank_witness :
  validate_job_count int_ascii (lit "   ") 10 = Ret 50
  /\ (10 < 50 ->
        exists n, validate_job_count int_ascii (lit "   ") 10 = Ret n /\ 10 < n).
Proof. apply (validate_job_count_blank int_ascii (lit "   ") 10). reflexivity. Defined.

Example validate_job_count_ex :
  validate_job_count int_ascii (lit "25") 500 = Ret 25
  /\ validate_job_count int_ascii (lit "0") 500 = Exn InputValidationError
  /\ validate_job_count int_ascii (lit "501") 500 = Exn InputValidationError
  /\ validate_job_count int_ascii (lit "many") 500 = Exn InputValidationError
  /\ validate_job_count int_ascii (lit "") 10 = Ret 50.
Proof. repeat split; reflexivity. Qed.

(* ===================================================================== *)
(** ** Text normalization: more on [_clean_text] *)
(* ===================================================================== *)

Section CleanText.

Implicit Types (w s cur : pystr) (ws : list pystr).

Lemma nospace_rev s : nospace (rev s) = nospace s.
Proof.
  unfold nospace. apply eq_true_iff_eq. rewrite !forallb_forall.
  split; intros H c Hc; apply H; by apply in_rev in Hc || apply in_rev.
Qed.

Lemma rev_word cur : cur <> [] -> nospace cur = true -> word (rev cur).
Proof.
  intros Hne Hs. split; [|by rewrite nospace_rev].
  intros E%(f_equal length). rewrite length_rev in E. by destruct cur.
Qed.

Lemma split_ws_from_words s cur :
  nospace cur = true -> Forall word (split_ws_from cur s).
Proof.
  revert cur. induction s as [|c s IH]; intros cur Hcur; simpl.
  - destruct cur as [|x cur]; [constructor|].
    constructor; [by apply rev_word | constructor].
  - destruct (isspace c) eqn:Ec.
    + destruct cur as [|x cur]; [by apply IH|].
      constructor; [by apply rev_word | by apply IH].
    + apply IH. unfold nospace in *. simpl. by rewrite Ec.
Qed.

(** Reading a word only extends the current run. *)
Lemma split_ws_from_word w s cur :
  nospace w = true ->
  split_ws_from cur (w ++ s) = split_ws_from (rev w ++ cur) s.
Proof.
  revert cur. induction w as [|c w IH]; intros cur Hw; [done|].
  simpl in Hw. apply andb_prop in Hw as [Hc Hw]. apply negb_true_iff in Hc.
  simpl. rewrite Hc, (IH _ Hw). by rewrite <- app_assoc.
Qed.

Lemma split_ws_from_end cur : cur <> [] -> split_ws_from cur [] = [rev cur].
Proof. by destruct cur. Qed.

Lemma split_ws_from_space cur s :
  cur <> [] -> split_ws_from cur (32%N :: s) = rev cur :: split_ws_from [] s.
Proof. by destruct cur. Qed.

Lemma rev_nonempty s : s <> [] -> rev s <> [].
Proof. intros Hne E%(f_equal length). rewrite length_rev in E. by destruct s. Qed.

(** Splitting the words joined by single spaces gives the words back. *)
Lemma split_ws_join ws :
  Forall word ws -> split_ws (join (lit " ") ws) = ws.
Proof.
  unfold split_ws. induction 1 as [|w ws [Hne Hw] Hws IH]; [done|].
  destruct ws as [|w' ws].
  - cbn [join]. rewrite <- (app_nil_r w), split_ws_from_word by done.
    rewrite app_nil_r, split_ws_from_end by (by apply rev_nonempty).
    by rewrite rev_involutive, app_nil_r.
  - change (join (lit " ") (w :: w' :: ws))
      with (w ++ 32%N :: join (lit " ") (w' :: ws)).
    rewrite split_ws_from_word by done.
    rewrite app_nil_r, split_ws_from_space by (by apply rev_nonempty).
    by rewrite rev_involutive, IH.
Qed.

Lemma lstrip_head c s : isspace c = false -> lstrip (c :: s) = c :: s.
Proof. intros H. simpl. by rewrite H. Qed.

(** Words joined by single spaces begin and end with a non-space. *)
Lemma join_words_ends ws :
  Forall word ws -> ws <> [] ->
  exists c s, join (lit " ") ws = c :: s /\ isspace c = false
    /\ exists d t, rev (c :: s) = d :: t /\ isspace d = false.
Proof.
  induction 1 as [|w ws [Hne Hw] Hws IH]; [done|]. intros _.
  destruct w as [|c w]; [done|]. simpl in Hw.
  apply andb_prop in Hw as [Hc Hw]. apply negb_true_iff in Hc.
  destruct ws as [|w' ws].
  - exists c, w. repeat split; [done|].
    destruct (rev (c :: w)) as [|d t] eqn:E.
    + by apply (f_equal length) in E; rewrite length_rev in E.
    + exists d, t. split; [done|].
      assert (In d (c :: w)) as [->|Hd]
        by (apply in_rev; rewrite E; by left); [done|].
      apply negb_true_iff. unfold nospace in Hw. rewrite forallb_forall in Hw.
      by apply Hw.
  - destruct IH as (c' & s' & Hj & Hc' & d & t & Hrev & Hd); [done|].
    change (join (lit " ") ((c :: w) :: w' :: ws))
      with (c :: w ++ 32%N :: join (lit " ") (w' :: ws)).
    rewrite Hj. exists c, (w ++ 32%N :: c' :: s'). repeat split; [done|].
    exists d, (t ++ 32%N :: rev w ++ [c]). split; [|done].
    change (c :: w ++ 32%N :: c' :: s') with ((c :: w) ++ [32%N] ++ (c' :: s')).
    rewrite !rev_app_distr, Hrev. simpl. by rewrite <- !app_assoc.
Qed.

Lemma strip_join_words ws :
  Forall word ws -> ws <> [] ->
  strip (join (lit " ") ws) = join (lit " ") ws.
Proof.
  intros Hws Hne.
  destruct (join_words_ends ws Hws Hne) as (c & s & -> & Hc & d & t & Hrev & Hd).
  unfold strip. rewrite (lstrip_head c s Hc), Hrev, (lstrip_head d t Hd), <- Hrev.
  apply rev_involutive.
Qed.

(** What [_clean_text] returns is a non-empty list of words joined by
    single spaces. *)
Lemma clean_text_words (text : pystr) :
  exists ws, ws <> [] /\ Forall word ws /\ _clean_text text = join (lit " ") ws.
Proof.
  assert (exists ws, ws <> [] /\ Forall word ws /\ NA = join (lit " ") ws) as HNA.
  { exists [NA]. repeat split; try done. repeat constructor; done. }
  unfold _clean_text. destruct (truthy text); simpl; [|done].
  pose proof (split_ws_from_words text [] eq_refl) as Hws.
  fold (split_ws text) in Hws.
  destruct (split_ws text) as [|w ws] eqn:E; [done|].
  assert (truthy (join (lit " ") (w :: ws)) = true) as ->.
  { destruct (join_words_ends (w :: ws) Hws) as (c & s & -> & _); done. }
  exists (w :: ws). rewrite strip_join_words by done. done.
Qed.

(** [_clean_text] by the words of the text. *)
Lemma clean_text_eq (text : pystr) :
  _clean_text text =
    match split_ws text with
    | [] => NA
    | ws => join (lit " ") ws
    end.
Proof.
  unfold _clean_text. destruct text as [|c text]; [done|].
  cbn [truthy negb].
  pose proof (split_ws_from_words (c :: text) [] eq_refl) as Hws.
  fold (split_ws (c :: text)) in Hws.
  destruct (split_ws (c :: text)) as [|w ws]; [done|].
  destruct (join_words_ends (w :: ws) Hws) as (x & t & Hj & _); [done|].
  rewrite strip_join_words by done. by rewrite Hj.
Qed.

(** X1. [_clean_text] never returns the empty string; its result has no
    whitespace at either end and is left unchanged by collapsing
    whitespace again. The words of a text that has any are kept, in
    order; a text without words gives the sentinel. *)
Theorem clean_text_normalized (text : pystr) :
  _clean_text text <> []
  /\ strip (_clean_text text) = _clean_text text
  /\ join (lit " ") (split_ws (_clean_text text)) = _clean_text text
  /\ (split_ws text <> [] -> split_ws (_clean_text text) = split_ws text)
  /\ (split_ws text = [] -> _clean_text text = NA).
Proof.
  destruct (clean_text_words text) as (ws & Hne & Hws & Heq).
  rewrite Heq. repeat split.
  - destruct (join_words_ends ws Hws Hne) as (c & t & -> & _). done.
  - by apply strip_join_words.
  - by rewrite split_ws_join.
  - intros Hs. rewrite <- Heq, clean_text_eq.
    pose proof (split_ws_from_words text [] eq_refl) as Hw.
    fold (split_ws text) in Hw.
    destruct (split_ws text) as [|w l]; [done|]. by apply split_ws_join.
  - intros Hs. by rewrite <- Heq, clean_text_eq, Hs.
Qed.

(** X2. [_clean_text] is idempotent. *)
Theorem clean_text_idempotent (text : pystr) :
  _clean_text (_clean_text text) = _clean_text text.
Proof.
  destruct (clean_text_words text) as (ws & Hne & Hws & Heq).
  rewrite Heq, clean_text_eq, split_ws_join by done.
  by destruct ws.
Qed.

End CleanText.

Example clean_text_ex :
  _clean_text (lit "  Senior   Data  Engineer ") = lit "Senior Data Engineer"
  /\ _clean_text (lit "   ") = lit "N/A"
  /\ _clean_text (lit "") = lit "N/A".
Proof. repeat split; reflexivity. Qed.

(* ===================================================================== *)
(** ** The fields of an accepted record *)
(* ===================================================================== *)

Lemma text_or_NA_nonempty (elem : option node) : text_or_NA elem <> [].
Proof.
  destruct elem as [e|]; [|done]. simpl.
  destruct (clean_text_words (get_text e)) as (ws & Hne & Hws & ->).
  destruct (join_words_ends ws Hws Hne) as (c & t & -> & _). done.
Qed.

Lemma extract_posted_date_nonempty (card : node) : extract_posted_date card <> [].
Proof.
  unfold extract_posted_date. destruct (date_elem card) as [e|]; [|done].
  pose proof (text_or_NA_nonempty (Some e)) as Ht. simpl in Ht.
  destruct (get_datetime e) as [[|c d]|]; done.
Qed.

Lemma normalize_href_nonempty (href : pystr) : normalize_href href <> [].
Proof.
  pose proof (normalize_href_http href) as H.
  by destruct (normalize_href href).
Qed.

(** X3. An accepted record has exactly the five keys [job_title],
    [company], [location], [url] and [posted_date], and none of its
    values is the empty string. *)
Theorem accepted_record_fields (card : node) (j : job) :
  _parse_job_card card = Some j ->
  dom j = RECORD_KEYS
  /\ (forall k v, j !! k = Some v -> v <> []).
Proof.
  intros Hj.
  destruct (accepted_url_href card j Hj) as (e & href & He & Hh & Hne & Hu).
  destruct (parse_job_card_fields card j Hj) as (_ & _ & Hurl).
  rewrite parse_job_card_eq in Hj.
  repeat case_match; try discriminate. injection Hj as <-. split.
  - rewrite !dom_insert_L, dom_empty_L. unfold RECORD_KEYS. set_solver.
  - intros k v. rewrite !lookup_insert. repeat case_decide; try done.
    + intros [= <-]. apply extract_posted_date_nonempty.
    + intros [= <-]. rewrite <- Hurl, Hu. apply normalize_href_nonempty.
    + intros [= <-]. apply text_or_NA_nonempty.
    + intros [= <-]. apply text_or_NA_nonempty.
    + intros [= <-]. apply text_or_NA_nonempty.
Qed.

Lemma accepted_record_fields_witness :
  dom (default ∅ (_parse_job_card card_httpx)) = RECORD_KEYS
  /\ (forall k v, default ∅ (_parse_job_card card_httpx) !! k = Some v -> v <> []).
Proof.
  apply (accepted_record_fields card_httpx). vm_compute. reflexivity.
Defined.

(* ===================================================================== *)
(** ** File names *)
(* ===================================================================== *)

Section FileNames.

Implicit Types (s name : pystr) (f : N -> bool).

Local Abbreviation valid := (fun c : N => invalid_char c = false).

Lemma forallb_valid s :
  forallb (fun c => negb (invalid_char c)) s = true -> Forall valid s.
Proof.
  rewrite forallb_forall, Forall_forall. intros H c Hc%list_elem_of_In.
  by apply negb_true_iff, H.
Qed.

Lemma replace_invalid_valid name : Forall valid (replace_invalid name).
Proof.
  unfold replace_invalid. induction name as [|c name IH]; simpl; constructor; [|done].
  by destruct (invalid_char c) eqn:E.
Qed.

(** [lstrip] and [strip] only drop characters at the ends. *)
Lemma lstrip_chars_suffix f s : exists a, s = a ++ lstrip_chars f s.
Proof.
  induction s as [|c s [a IH]]; simpl; [by exists []|].
  destruct (f c); [|by exists []]. exists (c :: a). simpl. by rewrite <- IH.
Qed.

Lemma strip_chars_prefix f s : exists b, lstrip_chars f s = strip_chars f s ++ b.
Proof.
  unfold strip_chars.
  destruct (lstrip_chars_suffix f (rev (lstrip_chars f s))) as [a Ha].
  exists (rev a). apply (f_equal (@rev N)) in Ha.
  by rewrite rev_involutive, rev_app_distr in Ha.
Qed.

Lemma lstrip_chars_head f s c t : lstrip_chars f s = c :: t -> f c = false.
Proof.
  induction s as [|x s IH]; simpl; [done|].
  destruct (f x) eqn:E; [done|]. by intros [= <- _].
Qed.

Lemma strip_chars_head f s c t : strip_chars f s = c :: t -> f c = false.
Proof.
  intros H. destruct (strip_chars_prefix f s) as [b Hb]. rewrite H in Hb.
  by apply (lstrip_chars_head f s c (t ++ b)).
Qed.

Lemma strip_chars_valid f s : Forall valid s -> Forall valid (strip_chars f s).
Proof.
  intros Hs. destruct (lstrip_chars_suffix f s) as [a Ha].
  destruct (strip_chars_prefix f s) as [b Hb].
  rewrite Ha, Hb in Hs. by apply Forall_app in Hs as [_ [? _]%Forall_app].
Qed.

Lemma strip_chars_length f s : (length (strip_chars f s) <= length s)%nat.
Proof.
  destruct (lstrip_chars_suffix f s) as [a Ha].
  destruct (strip_chars_prefix f s) as [b Hb].
  rewrite Ha at 2. rewrite Hb, !length_app. lia.
Qed.

(** What the steps of [sanitize_filename] before the fallback give. *)
Lemma sanitize_filename_eq name :
  sanitize_filename name =
    match take 50 (strip_chars space_or_dot (replace_invalid name)) with
    | [] => lit "untitled"
    | r => r
    end.
Proof.
  unfold sanitize_filename, len.
  set (t := strip_chars space_or_dot (replace_invalid name)).
  destruct (Z.gtb_spec (Z.of_nat (length t)) 50) as [Hg|Hg].
  - by destruct (take 50 t).
  - rewrite take_ge by lia. by destruct t.
Qed.

Lemma sanitize_filename_facts name :
  sanitize_filename name <> []
  /\ (length (sanitize_filename name) <= 50)%nat
  /\ Forall (fun c => invalid_char c = false) (sanitize_filename name)
  /\ (exists c t, sanitize_filename name = c :: t /\ space_or_dot c = false).
Proof.
  rewrite sanitize_filename_eq.
  set (t := strip_chars space_or_dot (replace_invalid name)).
  assert (Forall valid t) as Hv by apply strip_chars_valid, replace_invalid_valid.
  destruct (take 50 t) as [|c r] eqn:E.
  - repeat split; try done.
    + vm_compute. lia.
    + by apply forallb_valid.
    + by exists 117%N, (lit "ntitled").
  - repeat split; try done.
    + rewrite <- E, length_take. lia.
    + rewrite <- E. by apply Forall_take.
    + exists c, r. split; [done|].
      destruct t as [|c' t'] eqn:Et; [done|]. simpl in E. injection E as <- _.
      by apply (strip_chars_head space_or_dot (replace_invalid name) c' t').
Qed.

(** X4. A sanitized file name is never empty, has at most 50 characters,
    holds none of the invalid characters (backslash, slash, colon, star,
    question mark, double quote, angle brackets, bar, NUL), and does not
    begin with a space or a dot. *)
Theorem sanitize_filename_safe name :
  sanitize_filename name <> []
  /\ (length (sanitize_filename name) <= 50)%nat
  /\ Forall (fun c => invalid_char c = false) (sanitize_filename name)
  /\ (exists c t, sanitize_filename name = c :: t /\ space_or_dot c = false).
Proof. apply sanitize_filename_facts. Qed.

Lemma replace_invalid_id name : Forall valid name -> replace_invalid name = name.
Proof.
  unfold replace_invalid. induction 1 as [|c name Hc _ IH]; simpl; [done|].
  by rewrite Hc, IH.
Qed.

Lemma lstrip_chars_id f s :
  (forall c, head s = Some c -> f c = false) -> lstrip_chars f s = s.
Proof. destruct s as [|c s]; simpl; [done|]. intros H. by rewrite (H c). Qed.

(** X5. A name that is already safe is kept as it is: non-empty, at
    most 50 characters, none of them invalid, and neither the first nor
    the last a space or a dot. *)
Theorem sanitize_filename_keeps_safe name :
  name <> [] ->
  (length name <= 50)%nat ->
  Forall (fun c => invalid_char c = false) name ->
  (forall c, head name = Some c -> space_or_dot c = false) ->
  (forall c, head (rev name) = Some c -> space_or_dot c = false) ->
  sanitize_filename name = name.
Proof.
  intros Hne Hlen Hv Hfirst Hlast.
  rewrite sanitize_filename_eq, replace_invalid_id by done.
  unfold strip_chars. rewrite (lstrip_chars_id _ name Hfirst).
  rewrite (lstrip_chars_id _ (rev name) Hlast), rev_involutive.
  rewrite take_ge by lia. by destruct name.
Qed.

Lemma sanitize_filename_keeps_safe_witness :
  sanitize_filename (lit "Data Engineer (f.m.d)") = lit "Data Engineer (f.m.d)".
Proof.
  apply sanitize_filename_keeps_safe.
  - done.
  - vm_compute. lia.
  - by apply forallb_valid.
  - intros c [= <-]. reflexivity.
  - intros c [= <-]. reflexivity.
Defined.

(** X6. Whatever the job title and the location, the generated file
    name holds no path separator and no other invalid character, as long
    as the time stamp and the extension hold none; and it is at most 117
    characters longer than these two together. *)
Theorem generate_output_filename_safe (timestamp job_title location extension : pystr) :
  Forall (fun c => invalid_char c = false) timestamp ->
  Forall (fun c => invalid_char c = false) extension ->
  Forall (fun c => invalid_char c = false)
    (generate_output_filename timestamp job_title location extension)
  /\ (length (generate_output_filename timestamp job_title location extension)
      <= 117 + length timestamp + length extension)%nat.
Proof.
  intros Ht He. unfold generate_output_filename.
  destruct (sanitize_filename_facts job_title) as (_ & Hl1 & Hv1 & _).
  destruct (sanitize_filename_facts location) as (_ & Hl2 & Hv2 & _).
  split.
  - repeat (apply Forall_app; split); try done; by apply forallb_valid.
  - rewrite !length_app.
    change (length (lit "linkedin_jobs_")) with 14%nat.
    change (length (lit "_")) with 1%nat. change (length (lit ".")) with 1%nat. lia.
Qed.

End FileNames.

Lemma generate_output_filename_safe_witness :
  Forall (fun c => invalid_char c = false)
    (generate_output_filename (lit "2024-01-05_10-30-00") (lit "C/C++ Dev") (lit "Pune") (lit "csv"))
  /\ (length (generate_output_filename (lit "2024-01-05_10-30-00") (lit "C/C++ Dev")
                (lit "Pune") (lit "csv"))
      <= 117 + length (lit "2024-01-05_10-30-00") + length (lit "csv"))%nat.
Proof.
  apply generate_output_filename_safe; by apply forallb_valid.
Defined.

Example generate_output_filename_ex :
  generate_output_filename (lit "2024-01-05_10-30-00") (lit "C/C++ Dev: Sr.") (lit " ..") (lit "csv")
  = lit "linkedin_jobs_C_C++ Dev_ Sr_untitled_2024-01-05_10-30-00.csv".
Proof. reflexivity. Qed.

(* ===================================================================== *)
(** ** Deduplication, continued *)
(* ===================================================================== *)

Section DedupMore.

Implicit Types (seen : gset pystr) (jobs a b : list job) (j k : job).

(** A list without repeated, empty or seen urls is kept whole. *)
Lemma dedup_loop_fixed seen jobs :
  NoDup (get_url <$> jobs) ->
  (forall k, k ∈ jobs -> (get_url k ∉ seen) /\ get_url k <> []) ->
  dedup_loop seen [] jobs = jobs.
Proof.
  revert seen. induction jobs as [|j jobs IH]; intros seen Hnd Hk; [done|].
  rewrite fmap_cons in Hnd. apply NoDup_cons in Hnd as [Hj Hnd].
  destruct (Hk j) as [Hs Hne]; [by apply elem_of_cons; left|].
  rewrite dedup_loop_cons.
  apply truthy_ne in Hne. rewrite Hne, bool_decide_eq_true_2 by done. simpl.
  f_equal. apply IH; [done|]. intros k Hin.
  destruct (Hk k) as [Hks Hkne]; [by apply elem_of_cons; right|].
  split; [|done]. intros [Heq%elem_of_singleton|?]%elem_of_union; [|done].
  apply Hj. rewrite <- Heq. apply list_elem_of_fmap. eauto.
Qed.

(** The urls seen after a stretch of input: those before, and those of
    the records kept. *)
Lemma dedup_loop_split seen a b :
  dedup_loop seen [] (a ++ b) =
    dedup_loop seen [] a
    ++ dedup_loop (list_to_set (get_url <$> dedup_loop seen [] a) ∪ seen) [] b.
Proof.
  revert seen. induction a as [|j a IH]; intros seen.
  - simpl. f_equal. set_solver.
  - rewrite <- app_comm_cons, !dedup_loop_cons. case_match.
    + rewrite IH. rewrite <- app_comm_cons. do 2 f_equal.
      rewrite fmap_cons, list_to_set_cons. f_equal. set_solver.
    + apply IH.
Qed.

(** X7. Deduplicating is idempotent: a second pass changes nothing. *)
Theorem deduplicate_idempotent jobs :
  _deduplicate_jobs (_deduplicate_jobs jobs) = _deduplicate_jobs jobs.
Proof.
  unfold _deduplicate_jobs. apply dedup_loop_fixed.
  - apply dedup_loop_NoDup.
  - intros k Hk. apply dedup_loop_elem in Hk as [_ ?]. split; [set_solver | done].
Qed.

(** X8. Deduplicating an accumulation once at the end gives what
    deduplicating page by page gives: the records kept from the earlier
    pages, in place, followed by the records of the new page that are
    kept when the urls already kept count as seen. *)
Theorem deduplicate_page_by_page a b :
  _deduplicate_jobs (a ++ b) =
    _deduplicate_jobs a
    ++ dedup_loop (list_to_set (get_url <$> _deduplicate_jobs a)) [] b.
Proof.
  unfold _deduplicate_jobs. rewrite dedup_loop_split. do 2 f_equal. set_solver.
Qed.

End DedupMore.

(* ===================================================================== *)
(** ** Transport, continued *)
(* ===================================================================== *)

Section TransportMore.

Context {net : Type}.
Variable session_get : net -> params -> get_outcome * net.
Variable create_connection : net -> pystr -> bool * net.

Local Abbreviation io := (Transport.io net).
Local Abbreviation probe := (Transport.probe net create_connection).
Local Abbreviation check_internet_connection :=
  (Transport.check_internet_connection net create_connection).
Local Abbreviation handle := (Transport.handle net create_connection).
Local Abbreviation attempt_once := (Transport.attempt_once net session_get create_connection).
Local Abbreviation attempts := (Transport.attempts net session_get create_connection).
Local Abbreviation fetch_page := (Transport.fetch_page net session_get create_connection).
Local Abbreviation refused := (Shapes.refused create_connection).
Local Abbreviation retried := (Shapes.retried session_get create_connection).

Implicit Types (s : io) (p : params) (evs : list event).

Lemma count_gets_app evs evs' :
  count_gets (evs ++ evs') = (count_gets evs + count_gets evs')%nat.
Proof. unfold count_gets. by rewrite List.filter_app, length_app. Qed.

Lemma count_retry_sleeps_app evs evs' :
  count_retry_sleeps (evs ++ evs')
  = (count_retry_sleeps evs + count_retry_sleeps evs')%nat.
Proof. unfold count_retry_sleeps. by rewrite List.filter_app, length_app. Qed.

Lemma count_connects evs hosts :
  count_gets (EvConnect <$> hosts) = 0%nat
  /\ count_retry_sleeps (EvConnect <$> hosts) = 0%nat.
Proof. induction hosts as [|h hosts [? ?]]; simpl; done. Qed.

(** The probes go through the hosts in order and stop at the first
    answer. *)
Lemma probe_spec hosts s :
  exists n,
    (n <= length hosts)%nat
    /\ trace (probe hosts s).2 = trace s ++ (EvConnect <$> take n hosts)
    /\ ((probe hosts s).1 = false -> n = length hosts)
    /\ ((probe hosts s).1 = true -> (1 <= n)%nat).
Proof.
  revert s. induction hosts as [|h hosts IH]; intros s; simpl.
  - exists 0%nat. rewrite app_nil_r. repeat split; done || lia.
  - unfold do_connect. destruct (create_connection (world s) h) as [ok w].
    destruct ok; simpl.
    + exists 1%nat. repeat split; done || lia.
    + destruct (IH {| world := w; trace := trace s ++ [EvConnect h] |})
        as (n & Hn & Ht & Hf & Htrue).
      exists (S n). simpl in *. rewrite Ht, <- app_assoc. repeat split; try done.
      * lia.
      * intros H. by rewrite (Hf H).
      * lia.
Qed.

(** All hosts refuse: the result is [False], after every host was
    tried. *)
Lemma probe_refused hosts s w' :
  refused hosts (world s) = Some w' ->
  probe hosts s
  = (false, {| world := w'; trace := trace s ++ (EvConnect <$> hosts) |}).
Proof.
  revert s. induction hosts as [|h hosts IH]; intros s; simpl.
  - intros [= <-]. rewrite app_nil_r. by destruct s.
  - unfold do_connect. destruct (create_connection (world s) h) as [[|] w]; [done|].
    intros Hr.
    rewrite (IH {| world := w; trace := trace s ++ [EvConnect h] |} Hr).
    simpl. by rewrite <- app_assoc.
Qed.

Lemma probe_false_refused hosts s :
  (probe hosts s).1 = false ->
  refused hosts (world s) = Some (world (probe hosts s).2).
Proof.
  revert s. induction hosts as [|h hosts IH]; intros s; simpl; [done|].
  unfold do_connect. destruct (create_connection (world s) h) as [[|] w]; [done|].
  apply (IH {| world := w; trace := trace s ++ [EvConnect h] |}).
Qed.

(** A host answers: the hosts before it refused, and it is the last one
    tried. *)
Lemma probe_answered hosts s :
  (probe hosts s).1 = true ->
  exists pre h post w1,
    hosts = pre ++ h :: post
    /\ refused pre (world s) = Some w1
    /\ create_connection w1 h = (true, world (probe hosts s).2)
    /\ trace (probe hosts s).2 = trace s ++ (EvConnect <$> pre ++ [h]).
Proof.
  revert s. induction hosts as [|h hosts IH]; intros s; simpl; [done|].
  unfold do_connect. destruct (create_connection (world s) h) as [[|] w] eqn:Ec.
  - intros _. exists [], h, hosts, (world s). done.
  - intros Ht.
    destruct (IH {| world := w; trace := trace s ++ [EvConnect h] |} Ht)
      as (pre & h' & post & w1 & -> & Hr & Hc & Htr).
    exists (h :: pre), h', post, w1. simpl. rewrite Ec.
    repeat split; try done.
    rewrite Htr. simpl. by rewrite <- app_assoc.
Qed.

(** X9. [check_internet_connection] tries the three hosts in their
    order and stops at the first that accepts the connection. It answers
    [False] exactly when all three refuse, one after the other, and then
    all three were tried; it answers [True] when a host accepts after the
    hosts before it refused, and then that host is the last one tried.
    Nothing else is done on the network. *)
Theorem check_internet_connection_spec s :
  ((check_internet_connection s).1 = false
   <-> is_Some (refused PROBE_HOSTS (world s)))
  /\ ((check_internet_connection s).1 = false ->
      refused PROBE_HOSTS (world s) = Some (world (check_internet_connection s).2)
      /\ trace (check_internet_connection s).2
         = trace s ++ (EvConnect <$> PROBE_HOSTS))
  /\ ((check_internet_connection s).1 = true ->
      exists pre h post w1,
        PROBE_HOSTS = pre ++ h :: post
        /\ refused pre (world s) = Some w1
        /\ create_connection w1 h = (true, world (check_internet_connection s).2)
        /\ trace (check_internet_connection s).2
           = trace s ++ (EvConnect <$> pre ++ [h])).
Proof.
  unfold Transport.check_internet_connection. split; [split|split].
  - intros Hf. rewrite (probe_false_refused _ _ Hf). by eexists.
  - intros [w' Hr]. by rewrite (probe_refused _ _ _ Hr).
  - intros Hf. pose proof (probe_false_refused _ _ Hf) as Hr.
    split; [done|]. by rewrite (probe_refused _ _ _ Hr).
  - apply probe_answered.
Qed.

(** *** What one call of [fetch_page] does on the network *)

(** Events without a GET, with at most one retry sleep, and that one
    only before the last attempt. *)
Local Abbreviation quiet p attempt max_retries s s' :=
  (exists evs, trace s' = trace s ++ evs
     /\ Forall (fetch_event p) evs
     /\ count_gets evs = 0%nat
     /\ (count_retry_sleeps evs <= if (attempt <? max_retries - 1)%Z then 1 else 0)%nat).

Lemma quiet_refl p attempt max_retries s : quiet p attempt max_retries s s.
Proof.
  exists []. rewrite app_nil_r. repeat split; try done.
  change (count_retry_sleeps []) with 0%nat. lia.
Qed.

Lemma quiet_retry_sleep p attempt max_retries s :
  quiet p attempt max_retries s (retry_sleep net attempt max_retries s).
Proof.
  unfold retry_sleep. destruct (attempt <? max_retries - 1) eqn:E.
  - exists [EvSleepRetry]. repeat split; try done.
    constructor; [|done]. right. by left.
  - exists []. rewrite app_nil_r. repeat split; done.
Qed.

Lemma probe_host n h : h ∈ take n PROBE_HOSTS -> h ∈ PROBE_HOSTS.
Proof. intros (i & Hi & _)%elem_of_take. by eapply list_elem_of_lookup_2. Qed.

Lemma quiet_probe p attempt max_retries s :
  quiet p attempt max_retries s (check_internet_connection s).2
  /\ quiet p attempt max_retries s
       (retry_sleep net attempt max_retries (check_internet_connection s).2).
Proof.
  destruct (probe_spec PROBE_HOSTS s) as (n & _ & Ht & _).
  fold (check_internet_connection s) in Ht.
  assert (Forall (fetch_event p) (EvConnect <$> take n PROBE_HOSTS)) as Hall.
  { apply Forall_fmap, Forall_forall. intros h Hh. right. right.
    exists h. split; [by eapply probe_host | done]. }
  destruct (count_connects [] (take n PROBE_HOSTS)) as [Hg Hs].
  split.
  - exists (EvConnect <$> take n PROBE_HOSTS). rewrite Hs.
    repeat split; try done. lia.
  - destruct (quiet_retry_sleep p attempt max_retries (check_internet_connection s).2)
      as (evs & Ht' & Hall' & Hg' & Hs').
    exists ((EvConnect <$> take n PROBE_HOSTS) ++ evs).
    rewrite Ht', Ht, <- app_assoc, count_gets_app, count_retry_sleeps_app, Hg, Hs, Hg'.
    repeat split; try done. by apply Forall_app.
Qed.

Lemma handle_events p attempt max_retries c resp s :
  quiet p attempt max_retries s (handle attempt max_retries c resp s).2.
Proof.
  unfold Transport.handle.
  destruct (quiet_probe p attempt max_retries s) as [Hp Hps].
  destruct (check_internet_connection s) as [connected s1]. cbn [snd] in Hp, Hps.
  cbv zeta.
  destruct (issubclass c req_Timeout); [apply quiet_retry_sleep|].
  destruct (issubclass c req_ConnectionError).
  { destruct connected; cbn [negb snd]; [exact Hps | exact Hp]. }
  destruct (issubclass c req_HTTPError).
  { destruct (bool_decide (_ = Some 429)); [apply quiet_refl|].
    destruct (bool_decide (_ = Some 403)); [apply quiet_refl | apply quiet_retry_sleep]. }
  destruct (issubclass c req_SSLError); [apply quiet_refl | apply quiet_retry_sleep].
Qed.

(** One attempt: the GET, then no other GET. *)
Lemma attempt_once_events p attempt max_retries s :
  exists evs,
    trace (attempt_once attempt max_retries p s).2 = trace s ++ EvGet p :: evs
    /\ Forall (fetch_event p) evs
    /\ count_gets evs = 0%nat
    /\ (count_retry_sleeps evs <= if (attempt <? max_retries - 1)%Z then 1 else 0)%nat.
Proof.
  unfold Transport.attempt_once, do_get.
  destruct (session_get (world s) p) as [out w].
  set (s1 := {| world := w; trace := trace s ++ [EvGet p] |}).
  assert (forall r : attempt_result * io, quiet p attempt max_retries s1 r.2 ->
            exists evs, trace r.2 = trace s ++ EvGet p :: evs
              /\ Forall (fetch_event p) evs /\ count_gets evs = 0%nat
              /\ (count_retry_sleeps evs
                  <= if (attempt <? max_retries - 1)%Z then 1 else 0)%nat) as Hext.
  { intros r (evs & Ht & ?). exists evs. split; [|done].
    rewrite Ht. simpl. by rewrite <- app_assoc. }
  destruct out as [r|c resp].
  - destruct (raises_for_status r); [apply Hext, handle_events|].
    destruct (status_code r =? 200); apply Hext, quiet_refl.
  - apply Hext, handle_events.
Qed.

Lemma attempts_events p n attempt max_retries s :
  0 <= attempt ->
  exists evs,
    trace (attempts n attempt max_retries p s).2 = trace s ++ evs
    /\ Forall (fetch_event p) evs
    /\ (count_gets evs <= n)%nat
    /\ (count_retry_sleeps evs <= Z.to_nat (max_retries - 1 - attempt))%nat.
Proof.
  revert attempt s. induction n as [|n IH]; intros attempt s Ha; simpl.
  - exists []. rewrite app_nil_r.
    repeat split; try done; unfold count_gets, count_retry_sleeps; simpl; lia.
  - destruct (attempt_once_events p attempt max_retries s) as (evs & Ht & Hall & Hg & Hs).
    assert (Forall (fetch_event p) (EvGet p :: evs)) as Hall'
      by (constructor; [by left | done]).
    assert (count_gets (EvGet p :: evs) = 1%nat) as Hg'
      by (change (EvGet p :: evs) with ([EvGet p] ++ evs);
          rewrite count_gets_app, Hg; done).
    assert (count_retry_sleeps (EvGet p :: evs)
            <= Z.to_nat (max_retries - 1 - attempt)
               - Z.to_nat (max_retries - 1 - (attempt + 1)))%nat as Hs'.
    { change (EvGet p :: evs) with ([EvGet p] ++ evs).
      rewrite count_retry_sleeps_app. change (count_retry_sleeps [EvGet p]) with 0%nat.
      destruct (Z.ltb_spec attempt (max_retries - 1)); lia. }
    destruct (attempt_once attempt max_retries p s) as [[r|] s1]; cbn [snd] in *.
    + exists (EvGet p :: evs). repeat split; try done; lia.
    + destruct (IH (attempt + 1) s1) as (evs2 & Ht2 & Hall2 & Hg2 & Hs2); [lia|].
      exists ((EvGet p :: evs) ++ evs2).
      rewrite Ht2, Ht, <- app_assoc, count_gets_app, count_retry_sleeps_app.
      repeat split; try done; [by apply Forall_app | lia |].
      destruct (Z.ltb_spec attempt (max_retries - 1)); lia.
Qed.

Lemma fetch_page_events max_retries p s :
  exists evs,
    trace (fetch_page max_retries p s).2 = trace s ++ evs
    /\ Forall (fetch_event p) evs
    /\ (count_gets evs <= Z.to_nat max_retries)%nat
    /\ (count_retry_sleeps evs <= Z.to_nat (max_retries - 1))%nat.
Proof.
  destruct (attempts_events p (Z.to_nat max_retries) 0 max_retries s)
    as (evs & Ht & Hall & Hg & Hs); [lia|].
  exists evs. repeat split; try done. by rewrite Z.sub_0_r in Hs.
Qed.

(** X10. One call of [fetch_page] sends at most [max_retries] GETs, all
    with the query it was given, sleeps at most [max_retries - 1] times
    between them, and apart from that only probes the three hosts. With
    no attempt configured it does nothing and returns [None]. *)
Theorem fetch_page_bounded max_retries p s :
  (exists evs,
     trace (fetch_page max_retries p s).2 = trace s ++ evs
     /\ Forall (fetch_event p) evs
     /\ (count_gets evs <= Z.to_nat max_retries)%nat
     /\ (count_retry_sleeps evs <= Z.to_nat (max_retries - 1))%nat)
  /\ (max_retries <= 0 -> fetch_page max_retries p s = (Ret None, s)).
Proof.
  split; [apply fetch_page_events|].
  intros Hm. unfold Transport.fetch_page.
  by replace (Z.to_nat max_retries) with 0%nat by lia.
Qed.


(** *** What [fetch_page] returns and raises *)

Lemma handle_no_page attempt max_retries c resp s html s' :
  handle attempt max_retries c resp s <> (Finished (Ret (Some html)), s').
Proof.
  unfold Transport.handle.
  destruct (check_internet_connection s) as [connected s1].
  repeat case_match; congruence.
Qed.

(** X11. The page text [fetch_page] returns is the body of a response
    with status 200 to a GET for the query, and that GET is the last
    thing the call did on the network. *)
Theorem fetch_page_returns_200_body max_retries p s html s' :
  fetch_page max_retries p s = (Ret (Some html), s') ->
  exists w r pre,
    session_get w p = (Returns r, world s')
    /\ status_code r = 200 /\ text r = html
    /\ trace s' = pre ++ [EvGet p].
Proof.
  unfold Transport.fetch_page. generalize 0 as attempt.
  revert s. induction (Z.to_nat max_retries) as [|n IH]; intros s attempt; simpl; [done|].
  destruct (attempt_once attempt max_retries p s) as [[r|] s1] eqn:E; [|apply IH].
  intros [= -> ->]. revert E. unfold Transport.attempt_once, do_get.
  destruct (session_get (world s) p) as [[r|c resp] w] eqn:Eg.
  - destruct (raises_for_status r); [by intros ?%handle_no_page|].
    destruct (Z.eqb_spec (status_code r) 200) as [E200|]; [|done].
    intros [= <- <-]. exists (world s), r, (trace s). done.
  - by intros ?%handle_no_page.
Qed.

(** When a handler raises. *)
Lemma handle_raise_iff attempt max_retries c resp s e s' :
  handle attempt max_retries c resp s = (Finished (Exn e), s') <->
  e = ConnectionError
  /\ issubclass c req_Timeout = false
  /\ issubclass c req_ConnectionError = true
  /\ refused PROBE_HOSTS (world s) = Some (world s')
  /\ trace s' = trace s ++ (EvConnect <$> PROBE_HOSTS).
Proof.
  split.
  - intros H. pose proof (handle_raises create_connection _ _ _ _ _ _ _ H) as ->.
    split; [done|]. revert H. unfold Transport.handle.
    destruct (issubclass c req_Timeout); [done|].
    destruct (issubclass c req_ConnectionError).
    + pose proof (probe_false_refused PROBE_HOSTS s) as Hr.
      unfold Transport.check_internet_connection.
      destruct (probe PROBE_HOSTS s) as [connected s1] eqn:Ep. cbn [fst snd] in Hr.
      destruct connected; [done|]. intros [= <-].
      rewrite (probe_refused _ _ _ (Hr eq_refl)) in Ep. injection Ep as <-.
      by rewrite Hr.
    + repeat case_match; congruence.
  - intros (-> & Ht & Hc & Hr & Htr). unfold Transport.handle.
    rewrite Ht, Hc. unfold Transport.check_internet_connection.
    rewrite (probe_refused _ _ _ Hr). cbn [negb]. rewrite <- Htr. by destruct s'.
Qed.

(** When one attempt raises. *)
Lemma attempt_once_raise_iff attempt max_retries p s e s' :
  attempt_once attempt max_retries p s = (Finished (Exn e), s') <->
  e = ConnectionError
  /\ exists c resp w1,
       session_get (world s) p = (Raises c resp, w1)
       /\ issubclass c req_Timeout = false
       /\ issubclass c req_ConnectionError = true
       /\ refused PROBE_HOSTS w1 = Some (world s')
       /\ trace s' = trace s ++ EvGet p :: (EvConnect <$> PROBE_HOSTS).
Proof.
  unfold Transport.attempt_once, do_get.
  destruct (session_get (world s) p) as [[r|c resp] w].
  - split.
    + destruct (raises_for_status r).
      * by intros (_ & _ & ? & _)%handle_raise_iff.
      * by destruct (status_code r =? 200).
    + by intros (_ & c & resp & w1 & ? & _).
  - rewrite handle_raise_iff. cbn [world trace]. split.
    + intros (-> & Ht & Hc & Hr & Htr). split; [done|].
      exists c, resp, w. rewrite Htr, <- app_assoc. done.
    + intros (-> & c' & resp' & w1 & [= <- <- <-] & Ht & Hc & Hr & Htr).
      rewrite Htr, <- app_assoc. done.
Qed.

(** When the loop raises: at its first attempt that does not end in
    [continue]. *)
Lemma attempts_raise_iff n attempt max_retries p s e s' :
  attempts n attempt max_retries p s = (Exn e, s') <->
  e = ConnectionError
  /\ exists (k : nat) s_k c resp w1,
       (k < n)%nat
       /\ retried k attempt max_retries p s = Some s_k
       /\ session_get (world s_k) p = (Raises c resp, w1)
       /\ issubclass c req_Timeout = false
       /\ issubclass c req_ConnectionError = true
       /\ refused PROBE_HOSTS w1 = Some (world s')
       /\ trace s' = trace s_k ++ EvGet p :: (EvConnect <$> PROBE_HOSTS).
Proof.
  revert attempt s. induction n as [|n IH]; intros attempt s.
  - simpl. split; [done|]. intros (_ & k & ? & ? & ? & ? & ? & _). lia.
  - cbn [Transport.attempts].
    destruct (attempt_once attempt max_retries p s) as [[r|] s1] eqn:E.
    + split.
      * intros [= -> ->]. apply attempt_once_raise_iff in E as (-> & c & resp & w1 & H).
        split; [done|]. exists 0%nat, s, c, resp, w1. split; [lia|]. done.
      * intros (-> & k & s_k & c & resp & w1 & _ & Hk & H).
        destruct k as [|k]; simpl in Hk; [|by rewrite E in Hk].
        injection Hk as <-.
        assert (attempt_once attempt max_retries p s
                = (Finished (Exn ConnectionError), s')) as E'
          by (apply attempt_once_raise_iff; eauto 10).
        congruence.
    + rewrite IH. split.
      * intros (-> & k & s_k & c & resp & w1 & Hk & Hr & H).
        split; [done|]. exists (S k), s_k, c, resp, w1.
        split; [lia|]. split; [|done]. simpl. by rewrite E.
      * intros (-> & k & s_k & c & resp & w1 & Hk & Hr & H).
        split; [done|]. destruct k as [|k]; simpl in Hr.
        -- injection Hr as <-.
           assert (attempt_once attempt max_retries p s
                   = (Finished (Exn ConnectionError), s')) as E'
             by (apply attempt_once_raise_iff; eauto 10).
           congruence.
        -- rewrite E in Hr. exists k, s_k, c, resp, w1. split; [lia|]. done.
Qed.

(** X12. Of its four [raise] statements [fetch_page] only ever reaches
    the one for the builtin [ConnectionError]: for a [session.get] that
    returns a response or raises an exception of requests, it raises
    exactly when, after some attempts that each ended in [continue] and
    with an attempt still left, the GET for the query raises a requests
    [ConnectionError] that is not a [Timeout], and then each of the three
    probed hosts, tried in order from the world that GET left, refuses
    the connection. What it raises is [ConnectionError]; the failed GET
    and the three probes are the last things done, and the world is the
    one the last probe left. *)
Theorem fetch_page_raises_offline max_retries p s e s' :
  fetch_page max_retries p s = (Exn e, s') <->
  e = ConnectionError
  /\ exists (k : nat) s_k c resp w1,
       Z.of_nat k < max_retries
       /\ retried k 0 max_retries p s = Some s_k
       /\ session_get (world s_k) p = (Raises c resp, w1)
       /\ issubclass c req_Timeout = false
       /\ issubclass c req_ConnectionError = true
       /\ refused PROBE_HOSTS w1 = Some (world s')
       /\ trace s' = trace s_k ++ EvGet p :: (EvConnect <$> PROBE_HOSTS).
Proof.
  unfold Transport.fetch_page. rewrite attempts_raise_iff.
  split; intros (-> & k & s_k & c & resp & w1 & Hk & H);
    (split; [done|]); exists k, s_k, c, resp, w1; (split; [lia | done]).
Qed.

End TransportMore.

(* ===================================================================== *)
(** ** The pagination loop, continued *)
(* ===================================================================== *)

Section ScrapeMore.

Context {net : Type}.
Variable session_get : net -> params -> get_outcome * net.
Variable create_connection : net -> pystr -> bool * net.
Variable BeautifulSoup : pystr -> list node.
Variable self : scraper.
Variables job_title location : pystr.
Variable num_jobs : Z.
Variable experience_level : option pystr.

Local Abbreviation io := (Transport.io net).
Local Abbreviation fetch_job_page :=
  (Scraper.fetch_job_page net session_get create_connection self job_title location).
Local Abbreviation scrape_iter :=
  (Scraper.scrape_iter net session_get create_connection BeautifulSoup self
     job_title location num_jobs experience_level).
Local Abbreviation scrape_loop :=
  (Scraper.scrape_loop net session_get create_connection BeautifulSoup self
     job_title location num_jobs experience_level).
Local Abbreviation iterations_bound := (Scraper.iterations_bound num_jobs).
Local Abbreviation finish := (Scraper.finish num_jobs).
Local Abbreviation scrape :=
  (Scraper.scrape net session_get create_connection BeautifulSoup self
     job_title location num_jobs experience_level).
Local Abbreviation query_at offset := (query job_title location offset experience_level).

Implicit Types (s : io) (st : run_state) (evs : list event).

(** Unfold one iteration and split on what the fetch and the parse gave. *)
Ltac iter_split st s :=
  unfold Scraper.scrape_iter, Scraper.next_page, max_consecutive_empty;
  let html := fresh "html" in
  let s0 := fresh "s0" in
  let Hf := fresh "Hf" in
  let Hp := fresh "Hp" in
  destruct (fetch_job_page (start st) experience_level s)
    as [[[html|]|?] s0] eqn:Hf;
  [destruct (parse_jobs BeautifulSoup html) as [|? ?] eqn:Hp | |];
  cbn [set_consecutive_empty consecutive_empty all_jobs start].

(** *** The requests of a run *)

(** The events of one iteration: those of [fetch_page] for the current
    offset, then at most one sleep of the loop. *)
Lemma scrape_iter_events st s :
  exists evs,
    trace (scrape_iter st s).2 = trace s ++ evs
    /\ (forall p, EvGet p ∈ evs -> p = query_at (start st))
    /\ (count_gets evs <= Z.to_nat (max_retries (config self)))%nat.
Proof.
  destruct (fetch_page_events session_get create_connection
              (max_retries (config self)) (query_at (start st)) s)
    as (evs & Ht & Hall & Hg & _).
  fold (fetch_job_page (start st) experience_level s) in Ht.
  assert (forall p, EvGet p ∈ evs -> p = query_at (start st)) as Hgets.
  { intros p Hp. rewrite Forall_forall in Hall.
    destruct (Hall _ Hp) as [[= ->]|[?|(h & _ & ?)]]; done. }
  assert (forall e, e = EvSleepDelay \/ e = EvSleepBackoff ->
            trace s ++ evs ++ [e] = trace s ++ (evs ++ [e])
            /\ (forall p, EvGet p ∈ evs ++ [e] -> p = query_at (start st))
            /\ (count_gets (evs ++ [e]) <= Z.to_nat (max_retries (config self)))%nat)
    as Hsleep.
  { intros e He. split; [done|]. split.
    - intros p [Hp|Hp%list_elem_of_singleton]%elem_of_app; [by apply Hgets|].
      destruct He; congruence.
    - rewrite count_gets_app. destruct He as [-> | ->]; simpl;
        unfold count_gets in *; simpl; lia. }
  revert Ht. iter_split st s; cbn [snd]; intros Ht;
    repeat case_match; cbn [snd]; unfold log; cbn [trace];
    rewrite Ht, <- ?app_assoc; eauto 6; eexists; apply Hsleep; auto.
Qed.

(** An iteration leaves the offset or advances it by one page. *)
Lemma scrape_iter_start st s st1 s1 :
  scrape_iter st s = (IterContinue st1, s1) ->
  start st1 = start st \/ start st1 = start st + JOBS_PER_PAGE.
Proof.
  iter_split st s; repeat case_match; intros [= <- <-]; cbn [start]; auto.
Qed.

Lemma scrape_loop_events fuel st s x st' s' :
  scrape_loop fuel st s = Some (x, st', s') ->
  (exists k, 0 <= k /\ start st = JOBS_PER_PAGE * k) ->
  exists evs,
    trace s' = trace s ++ evs
    /\ (forall p, EvGet p ∈ evs ->
          exists k, 0 <= k /\ p = query_at (JOBS_PER_PAGE * k))
    /\ (count_gets evs <= fuel * Z.to_nat (max_retries (config self)))%nat.
Proof.
  revert st s. induction fuel as [|fuel IH]; intros st s; [done|].
  cbn [Scraper.scrape_loop]. intros Hl (k & Hk & Hstart).
  assert (exists evs, trace s = trace s ++ evs
            /\ (forall p, EvGet p ∈ evs ->
                  exists k, 0 <= k /\ p = query_at (JOBS_PER_PAGE * k))
            /\ (count_gets evs <= S fuel * Z.to_nat (max_retries (config self)))%nat)
    as Hnil.
  { exists []. rewrite app_nil_r. split; [done|].
    split; [by intros p ?%elem_of_nil | unfold count_gets; simpl; lia]. }
  destruct (len (all_jobs st) <? num_jobs); [|by injection Hl as _ _ <-].
  destruct (scrape_iter_events st s) as (evs & Ht & Hgets & Hcount).
  assert (forall p, EvGet p ∈ evs ->
            exists k, 0 <= k /\ p = query_at (JOBS_PER_PAGE * k)) as Hgets'
    by (intros p Hp; exists k; by rewrite <- Hstart, (Hgets p Hp)).
  destruct (scrape_iter st s) as [[e st1|site st1|st1] s1] eqn:E; cbn [snd] in Ht.
  - injection Hl as _ _ <-. exists evs. split; [done|]. split; [done|]. lia.
  - injection Hl as _ _ <-. exists evs. split; [done|]. split; [done|]. lia.
  - destruct (IH st1 s1 Hl) as (evs2 & Ht2 & Hgets2 & Hcount2).
    { apply scrape_iter_start in E as [Hs | Hs].
      - exists k. split; [done | congruence].
      - exists (k + 1). split; [lia|]. rewrite Hs, Hstart. clear. lia. }
    exists (evs ++ evs2). rewrite Ht2, Ht, <- app_assoc, count_gets_app.
    split; [done|]. split; [|lia].
    intros p [?|?]%elem_of_app; auto.
Qed.

(** X13. Every GET of a run carries the given keywords, location and
    experience filter, and an offset that is a non-negative multiple of
    the page size 25. *)
Theorem scrape_requests s :
  exists r self' s' evs,
    scrape s = Some (r, self', s')
    /\ trace s' = trace s ++ evs
    /\ (forall p, EvGet p ∈ evs ->
          exists k, 0 <= k /\ p = query job_title location (25 * k) experience_level).
Proof.
  destruct (scrape_loop_enough session_get create_connection BeautifulSoup self
              job_title location num_jobs experience_level
              (iterations_bound initial_state) initial_state s)
    as [[[x st] s1] Hl]; [done|].
  destruct (scrape_loop_events _ _ _ _ _ _ Hl) as (evs & Ht & Hgets & _);
    [by exists 0|].
  rewrite (scrape_eq _ _ _ _ _ _ _ _ s x st s1 Hl).
  destruct x; eexists _, _, _, evs; done.
Qed.

(** X14. A run ends, and it sends at most
    [(4 * num_jobs + 4) * max_retries] GETs. *)
Theorem scrape_requests_bounded s :
  exists r self' s' evs,
    scrape s = Some (r, self', s')
    /\ trace s' = trace s ++ evs
    /\ (count_gets evs
        <= (4 * Z.to_nat num_jobs + 4) * Z.to_nat (max_retries (config self)))%nat.
Proof.
  destruct (scrape_loop_enough session_get create_connection BeautifulSoup self
              job_title location num_jobs experience_level
              (iterations_bound initial_state) initial_state s)
    as [[[x st] s1] Hl]; [done|].
  destruct (scrape_loop_events _ _ _ _ _ _ Hl) as (evs & Ht & _ & Hcount);
    [by exists 0|].
  rewrite (scrape_eq _ _ _ _ _ _ _ _ s x st s1 Hl).
  assert (iterations_bound initial_state = (4 * Z.to_nat num_jobs + 4)%nat) as Hb.
  { unfold Scraper.iterations_bound. cbn [all_jobs consecutive_empty initial_state].
    change (len []) with 0. rewrite Z.sub_0_r. lia. }
  rewrite Hb in Hcount.
  destruct x; eexists _, _, _, evs; done.
Qed.

(** *** The records of a run *)

Local Abbreviation accepted j := (exists card, _parse_job_card card = Some j).

Lemma parse_jobs_accepted html : Forall (fun j => accepted j) (parse_jobs BeautifulSoup html).
Proof.
  unfold parse_jobs. destruct (truthy html); simpl; [|constructor].
  apply Forall_forall. intros j (card & _ & Hc)%list_elem_of_omap. eauto.
Qed.

Lemma scrape_iter_accepted st s :
  Forall (fun j => accepted j) (all_jobs st) ->
  match (scrape_iter st s).1 with
  | IterRaise _ st1 | IterBreak _ st1 | IterContinue st1 =>
      Forall (fun j => accepted j) (all_jobs st1)
  end.
Proof.
  intros Hst. iter_split st s;
    repeat match goal with |- context [if ?b then _ else _] => destruct b end;
    cbn [fst all_jobs set_consecutive_empty]; try done.
  all: apply Forall_app; split; [done|]; rewrite <- Hp; apply parse_jobs_accepted.
Qed.

Lemma scrape_loop_accepted fuel st s x st' s' :
  scrape_loop fuel st s = Some (x, st', s') ->
  Forall (fun j => accepted j) (all_jobs st) ->
  Forall (fun j => accepted j) (all_jobs st').
Proof.
  revert st s. induction fuel as [|fuel IH]; intros st s; [done|].
  cbn [Scraper.scrape_loop]. intros Hl Hst.
  destruct (len (all_jobs st) <? num_jobs); [|by injection Hl as _ <- _].
  pose proof (scrape_iter_accepted st s Hst) as Hit.
  destruct (scrape_iter st s) as [[e st1|site st1|st1] s1]; cbn [fst] in Hit.
  - by injection Hl as _ <- _.
  - by injection Hl as _ <- _.
  - by apply (IH st1 s1).
Qed.

(** X15. Every record [scrape] returns was accepted by
    [_parse_job_card] from some card: its title is not the sentinel and
    has at least 2 characters, and its url begins with "http" and holds
    no "?". *)
Theorem scrape_returns_accepted s js self' s' :
  scrape s = Some (Ret js, self', s') ->
  forall j, j ∈ js ->
    (exists card, _parse_job_card card = Some j)
    /\ j !!! "job_title" <> NA
    /\ 2 <= len (j !!! "job_title")
    /\ startswith (lit "http") (get_url j) = true
    /\ has_char QUESTION (get_url j) = false.
Proof.
  intros Hs j Hj.
  destruct (scrape_loop_enough session_get create_connection BeautifulSoup self
              job_title location num_jobs experience_level
              (iterations_bound initial_state) initial_state s)
    as [[[x st] s1] Hl]; [done|].
  rewrite (scrape_eq _ _ _ _ _ _ _ _ s x st s1 Hl) in Hs.
  destruct x as [site|e]; [|done]. injection Hs as <- _ _.
  assert (j ∈ all_jobs st) as Hin.
  { eapply elem_of_sublist; [exact Hj|].
    etrans; [apply finish_sublist | apply dedup_loop_sublist]. }
  pose proof (scrape_loop_accepted _ _ _ _ _ _ Hl (Forall_nil_2 _)) as Hacc.
  rewrite Forall_forall in Hacc. destruct (Hacc j Hin) as [card Hc].
  destruct (parse_job_card_fields card j Hc) as (Ht & _ & _).
  destruct (accepted_url_href card j Hc) as (e & href & _ & _ & _ & Hu).
  assert (is_Some (_parse_job_card card)) as Hsome by eauto.
  apply parse_job_card_some_iff in Hsome as (Hna & _ & Hlen).
  rewrite (lookup_total_correct _ _ _ Ht), Hu.
  split; [eauto|]. split; [done|]. split; [done|].
  split; [apply normalize_href_http | apply cut_query_spec].
Qed.

(** X16. With a target of zero or less, [scrape] sends nothing and
    returns the empty list, which it also stores in [self.jobs]. *)
Theorem scrape_nothing_to_do s :
  num_jobs <= 0 ->
  scrape s = Some (Ret [], {| config := config self; jobs := [] |}, s).
Proof.
  intros Hn. unfold Scraper.scrape, Scraper.iterations_bound.
  rewrite Nat.add_1_r. cbn [Scraper.scrape_loop].
  assert ((len (all_jobs initial_state) <? num_jobs) = false) as ->
    by (apply Z.ltb_ge; change (num_jobs <= 0); clear -Hn; lia).
  unfold Scraper.finish, _deduplicate_jobs. cbn [all_jobs initial_state dedup_loop].
  destruct (len [] >? num_jobs); [|done].
  unfold slice_to. by destruct (0 <=? num_jobs); rewrite take_nil.
Qed.

End ScrapeMore.

(* ===================================================================== *)
(** ** User input, continued *)
(* ===================================================================== *)

Section UserInputFacts.

Variable int : pystr -> option Z.

(** X17. [validate_job_count] returns [n] exactly when the input is
    blank and [n] is 50, or the input is not blank and converts to an [n]
    between 1 and [max_limit]; in every other case it raises
    [InputValidationError], and nothing else. *)
Theorem validate_job_count_spec (value : pystr) (max_limit n : Z) :
  (validate_job_count int value max_limit = Ret n <->
     (strip value = [] /\ n = 50)
     \/ (strip value <> [] /\ int value = Some n /\ 1 <= n <= max_limit))
  /\ (forall e, validate_job_count int value max_limit = Exn e ->
        e = InputValidationError).
Proof.
  unfold validate_job_count. destruct (strip value) as [|c t] eqn:Es; simpl.
  - split; [|done]. split; [intros [= <-]; by left|].
    intros [[_ ->]|[? _]]; done.
  - destruct (int value) as [num|].
    + destruct (Z.leb_spec num 0); [|destruct (Z.gtb_spec num max_limit)].
      * split; [|by intros e [= <-]]. split; [done|].
        intros [[? _]|(_ & [= ->] & ? & _)]; [done | lia].
      * split; [|by intros e [= <-]]. split; [done|].
        intros [[? _]|(_ & [= ->] & _ & ?)]; [done | lia].
      * split; [|done]. split.
        -- intros [= <-]. right. repeat split; done || lia.
        -- intros [[? _]|(_ & [= ->] & _)]; done.
    + split; [|by intros e [= <-]]. split; [done|].
      intros [[? _]|(_ & ? & _)]; done.
Qed.

Lemma prompt_num_jobs_range (max_limit : Z) (inputs : list pystr) n rest :
  prompt_num_jobs int max_limit inputs = Some (n, rest) ->
  n = 50 \/ 1 <= n <= max_limit.
Proof.
  induction inputs as [|line inputs IH]; simpl; [done|].
  destruct (validate_job_count int (strip line) max_limit) as [m|e] eqn:E; [|done].
  intros [= -> _]. unfold validate_job_count in E.
  destruct (truthy (strip (strip line))); simpl in E; [|injection E as <-; by left].
  destruct (int (strip line)) as [num|]; [|done].
  destruct (Z.leb_spec num 0); [done|].
  destruct (Z.gtb_spec num max_limit); [done|]. injection E as <-. right. lia.
Qed.

End UserInputFacts.

(** [strip] leaves nothing to strip. *)
Lemma lstrip_is_lstrip_chars (s : pystr) : lstrip s = lstrip_chars isspace s.
Proof. induction s as [|c s IH]; simpl; [done|]. by rewrite IH. Qed.

Lemma strip_is_strip_chars (s : pystr) : strip s = strip_chars isspace s.
Proof. unfold strip, strip_chars. by rewrite !lstrip_is_lstrip_chars. Qed.

Lemma strip_chars_idempotent (f : N -> bool) (s : pystr) :
  strip_chars f (strip_chars f s) = strip_chars f s.
Proof.
  set (t := strip_chars f s).
  assert (forall c, head t = Some c -> f c = false) as Hfirst.
  { intros c Hc. destruct t as [|c' t'] eqn:Et; [done|]. injection Hc as ->.
    by apply (strip_chars_head f s c t'). }
  assert (forall c, head (rev t) = Some c -> f c = false) as Hlast.
  { intros c Hc. subst t. unfold strip_chars in Hc. rewrite rev_involutive in Hc.
    destruct (lstrip_chars f (rev (lstrip_chars f s))) as [|c' t'] eqn:Et; [done|].
    injection Hc as ->. by apply (lstrip_chars_head f _ c t' Et). }
  unfold strip_chars at 1. rewrite (lstrip_chars_id f t Hfirst).
  by rewrite (lstrip_chars_id f (rev t) Hlast), rev_involutive.
Qed.

Lemma prompt_job_title_stripped (inputs : list pystr) t rest :
  prompt_job_title inputs = Some (t, rest) -> strip t = t.
Proof.
  induction inputs as [|line inputs IH]; simpl; [done|].
  destruct (truthy (strip line)); simpl; [|done].
  intros [= <- _]. rewrite !strip_is_strip_chars. apply strip_chars_idempotent.
Qed.

Lemma experience_of_known (exp_input e : pystr) :
  experience_of exp_input = Some e -> is_Some (EXPERIENCE_LEVELS !! e).
Proof.
  unfold experience_of. intros H.
  destruct (experience_map !! exp_input) as [[e'|]|] eqn:E; simpl in H; [|done|done].
  injection H as ->. apply elem_of_list_to_map_2 in E.
  repeat (apply elem_of_cons in E as [E1|E];
          [first [discriminate E1 | injection E1 as _ ->; vm_compute; eauto]|]).
  by apply elem_of_nil in E.
Qed.

(** X18. What [get_user_input] returns: a title that is non-empty and
    has no surrounding whitespace; a location that is non-empty when the
    default location is; a job count that is 50 or lies between 1 and the
    configured maximum; and no experience level or one of the six that
    [EXPERIENCE_LEVELS] knows. *)
Theorem get_user_input_result (int : pystr -> option Z) (cfg : settings)
    (inputs : list pystr) job_title location num_jobs experience_level export :
  get_user_input int cfg inputs
    = Some (job_title, location, num_jobs, experience_level, export) ->
  job_title <> [] /\ strip job_title = job_title
  /\ (default_location cfg <> [] -> location <> [])
  /\ (num_jobs = 50 \/ 1 <= num_jobs <= max_jobs_limit cfg)
  /\ (forall e, experience_level = Some e -> is_Some (EXPERIENCE_LEVELS !! e)).
Proof.
  unfold get_user_input.
  destruct (prompt_job_title inputs) as [[t in1]|] eqn:Et; [|done].
  destruct in1 as [|l1 in2]; [done|].
  destruct (prompt_num_jobs int (max_jobs_limit cfg) in2) as [[n in3]|] eqn:En; [|done].
  destruct in3 as [|l3 in4]; [done|]. destruct in4 as [|l4 in5]; [done|].
  intros [= <- <- <- <- _].
  split; [by eapply prompt_job_title_nonempty|].
  split; [by eapply prompt_job_title_stripped|].
  split; [|split].
  - intros Hd. by destruct (strip l1).
  - by eapply prompt_num_jobs_range.
  - intros e. apply experience_of_known.
Qed.

(** X19. The menu entry and the filter sent agree: typing one of "1" to
    "6" at the experience prompt makes the query carry exactly that digit
    as [f_E]; any other entry sends no filter. *)
Theorem experience_entry_is_filter (exp_input keywords location : pystr) (offset : Z) :
  p_f_E (query keywords location offset (experience_of exp_input))
  = if bool_decide (exp_input ∈ [lit "1"; lit "2"; lit "3"; lit "4"; lit "5"; lit "6"])
    then Some exp_input else None.
Proof.
  destruct (decide (exp_input ∈ [lit "1"; lit "2"; lit "3"; lit "4"; lit "5"; lit "6";
                                 lit "7"; lit ""])) as [Hin|Hout].
  - repeat (apply elem_of_cons in Hin as [->|Hin]; [by vm_compute|]).
    by apply elem_of_nil in Hin.
  - rewrite bool_decide_eq_false_2.
    + unfold experience_of.
      assert (experience_map !! exp_input = None) as ->
        by (apply not_elem_of_list_to_map_1; exact Hout).
      done.
    + intros Hin. apply Hout.
      repeat (apply elem_of_cons in Hin as [->|Hin]; [set_solver|]).
      by apply elem_of_nil in Hin.
Qed.

(* ===================================================================== *)
(** ** Url normalization, continued *)
(* ===================================================================== *)

Lemma cut_query_id (job_url : pystr) :
  has_char QUESTION job_url = false -> cut_query job_url = job_url.
Proof. intros H. unfold cut_query. by rewrite H. Qed.

(** X20. Normalizing a url that is already normalized changes nothing. *)
Theorem normalize_href_idempotent (href : pystr) :
  normalize_href (normalize_href href) = normalize_href href.
Proof.
  pose proof (normalize_href_http href) as Hh.
  assert (has_char QUESTION (normalize_href href) = false) as Hq
    by (rewrite normalize_href_cases; apply cut_query_spec).
  rewrite (normalize_href_cases (normalize_href href)).
  by rewrite (http_not_slash _ Hh), Hh, cut_query_id.
Qed.

(* ===================================================================== *)
(** ** Configuration *)
(* ===================================================================== *)

Import Configuration.

(** X21. Whether the configuration file is missing, unreadable, not
    JSON or a JSON object, the loaded
    configuration has all twelve default keys, so [get] never falls back
    to its second argument for them. Every entry of the user's file is
    kept as it is, also when it overrides a default or is unknown; a key
    the file leaves out reads as in the defaults; and without a usable
    file the configuration is the default one. *)
Theorem load_config_merges (file : config_file) :
  (forall key fallback, key ∈ dom DEFAULT_CONFIG ->
     exists v, (_load_config file).1 !! key = Some v
               /\ get (_load_config file).1 key fallback = v)
  /\ (forall user_config key v fallback,
        file = Parsed user_config -> user_config !! key = Some v ->
        get (_load_config file).1 key fallback = v)
  /\ (forall user_config key fallback,
        file = Parsed user_config -> user_config !! key = None ->
        get (_load_config file).1 key fallback = get DEFAULT_CONFIG key fallback)
  /\ ((forall user_config, file <> Parsed user_config) ->
      (_load_config file).1 = DEFAULT_CONFIG).
Proof.
  split; [|split; [|split]].
  - intros key fallback Hk.
    assert (key ∈ dom (_load_config file).1) as [v Hv]%elem_of_dom.
    { destruct file; simpl; try done. rewrite dom_union_L. set_solver. }
    exists v. unfold get. by rewrite Hv.
  - intros user_config key v fallback -> Hv. unfold get. simpl.
    by rewrite (lookup_union_Some_l _ _ _ _ Hv).
  - intros user_config key fallback -> Hv. unfold get. simpl.
    by rewrite (lookup_union_r _ _ _ Hv).
  - intros Hn. destruct file as [| | |u]; try done. by destruct (Hn u).
Qed.

Example load_config_ex :
  let user : gmap string value := {[ "max_retries" := VInt 5; "proxy" := VNull ]} in
  get (_load_config (Parsed user)).1 "max_retries" (VInt 3) = VInt 5
  /\ get (_load_config (Parsed user)).1 "proxy" (VStr []) = VNull
  /\ get (_load_config (Parsed user)).1 "timeout_seconds" (VInt 1) = VInt 30
  /\ get (_load_config Malformed).1 "max_retries" (VInt 9) = VInt 3.
Proof. repeat split; reflexivity. Qed.

(* ===================================================================== *)
(** ** The Downloads folder *)
(* ===================================================================== *)

(** X22. On every system, [get_downloads_folder] returns a path that
    exists, or else the home directory; a Windows or macOS machine whose
    home has a Downloads folder gets that folder. *)
Theorem downloads_folder_exists_or_home (path : Type) (home : path)
    (child : path -> pystr -> path) (of_str : pystr -> path)
    (exists_ : path -> bool) (system_name : pystr) (xdg_download : option pystr) :
  let folder :=
    Downloads.get_downloads_folder path home child of_str exists_
      system_name xdg_download in
  (folder = home \/ exists_ folder = true)
  /\ (exists_ (child home (lit "Downloads")) = true ->
      lower system_name = lit "windows" \/ lower system_name = lit "darwin" ->
      folder = child home (lit "Downloads")).
Proof.
  unfold Downloads.get_downloads_folder, Downloads.or_home. split.
  - repeat case_match; simplify_eq/=;
      repeat match goal with
             | H : negb _ = true |- _ => apply negb_true_iff in H
             | H : negb _ = false |- _ => apply negb_false_iff in H
             end; auto.
  - intros He Hs. rewrite He. cbn [negb].
    destruct Hs as [-> | ->]; reflexivity.
Qed.

(* ===================================================================== *)
(** ** Concrete runs, continued *)
(* ===================================================================== *)

Lemma fetch_page_returns_200_body_witness :
  exists w r pre,
    session_get w (q "python" 0) = (Returns r, {| gets := [ok "B"]; online := true |})
    /\ status_code r = 200 /\ text r = lit "A"
    /\ [EvGet (q "python" 0)] = pre ++ [EvGet (q "python" 0)].
Proof.
  apply (fetch_page_returns_200_body session_get create_connection 3
           (q "python" 0) (fresh net_AB) (lit "A")
           {| world := {| gets := [ok "B"]; online := true |};
              trace := [EvGet (q "python" 0)] |}).
  vm_compute. reflexivity.
Defined.

Lemma fetch_page_raises_offline_witness :
  ConnectionError = ConnectionError
  /\ exists (k : nat) s_k c resp w1,
       Z.of_nat k < 3
       /\ retried session_get create_connection k 0 3 (q "python" 0) (fresh net_offline)
          = Some s_k
       /\ session_get (world s_k) (q "python" 0) = (Raises c resp, w1)
       /\ issubclass c req_Timeout = false
       /\ issubclass c req_ConnectionError = true
       /\ refused create_connection PROBE_HOSTS w1 = Some (drained false)
       /\ EvGet (q "python" 0) :: (EvConnect <$> PROBE_HOSTS)
          = trace s_k ++ EvGet (q "python" 0) :: (EvConnect <$> PROBE_HOSTS).
Proof.
  apply (proj1 (fetch_page_raises_offline session_get create_connection 3
                  (q "python" 0) (fresh net_offline) ConnectionError
                  {| world := drained false;
                     trace := EvGet (q "python" 0) :: (EvConnect <$> PROBE_HOSTS) |})).
  vm_compute. reflexivity.
Defined.

Lemma scrape_returns_accepted_witness :
  (exists card, _parse_job_card card = Some job_A)
  /\ job_A !!! "job_title" <> NA
  /\ 2 <= len (job_A !!! "job_title")
  /\ startswith (lit "http") (get_url job_A) = true
  /\ has_char QUESTION (get_url job_A) = false.
Proof.
  apply (scrape_returns_accepted session_get create_connection (parser_of pages)
           cfg3 (lit "python") (lit "India") 2 None (fresh net_AB)
           (parse_cards page_A ++ parse_cards page_B)
           {| config := config cfg3; jobs := parse_cards page_A ++ parse_cards page_B |}
           {| world := drained true;
              trace := [EvGet (q "python" 0); EvSleepDelay; EvGet (q "python" 25)] |}).
  - vm_compute. reflexivity.
  - apply elem_of_app. left. unfold job_A.
    assert (exists j l, parse_cards page_A = j :: l) as (j & l & ->)
      by (vm_compute; eauto).
    simpl. constructor.
Defined.

Lemma scrape_nothing_to_do_witness :
  run cfg3 "python" 0 net_AB
  = Some (Ret [], {| config := config cfg3; jobs := [] |}, fresh net_AB).
Proof.
  apply (scrape_nothing_to_do session_get create_connection (parser_of pages)
           cfg3 (lit "python") (lit "India") 0 None (fresh net_AB)). lia.
Defined.

Example get_user_input_ex :
  get_user_input int_ascii sample_settings sample_inputs
  = Some (lit "Data Engineer", lit "India", 20, Some (lit "associate"), true).
Proof. vm_compute. reflexivity. Qed.

Lemma get_user_input_result_witness :
  lit "Data Engineer" <> [] /\ strip (lit "Data Engineer") = lit "Data Engineer"
  /\ (default_location sample_settings <> [] -> lit "India" <> [])
  /\ (20 = 50 \/ 1 <= 20 <= max_jobs_limit sample_settings)
  /\ (forall e, Some (lit "associate") = Some e -> is_Some (EXPERIENCE_LEVELS !! e)).
Proof.
  apply (get_user_input_result int_ascii sample_settings sample_inputs
           (lit "Data Engineer") (lit "India") 20 (Some (lit "associate")) true).
  vm_compute. reflexivity.
Defined.
